(** * Autocomplete controller of the book recommender (static/js/app.js)

    A shallow embedding of the type-ahead widget: the escaping function, the
    suggestion renderer, the selection state machine, the debounced input
    observer and the cancellable request coordinator, with the properties
    the specification states about them.

    Conventions of the embedding.
    - A JavaScript string is a [string]; a character stands for one code
      unit, taken among the first 256.  The five escaped characters and
      the key names are ASCII; white space includes the no-break space.
    - [activeIndex] is a [Z]; the [%] operator of JavaScript is the
      truncating remainder [Z.rem] (the sign follows the dividend).  The
      script can produce [-0] where [Z.rem] gives [0]; the two are equal for
      every use the script makes of the index ([===], [>=], array access).
    - The host (DOM, timers, network) is modelled as explicit state; every
      event handler runs to completion, as the event loop guarantees. *)

From Stdlib Require Import String Ascii List ZArith Lia Bool Arith.
From Stdlib Require Import DecimalString.
Import ListNotations.
Open Scope string_scope.
Set Warnings "-register-all".

(* ================================================================== *)
(** ** Strings *)

Module Js.

(** The double-quote character, code unit 34. *)
Definition dquote : ascii := "034"%char.

(** Line feed, carriage return, the null character and the no-break
    space: code units 10, 13, 0 and 160. *)
Definition lf : ascii := "010"%char.
Definition cr : ascii := "013"%char.
Definition nul : ascii := "000"%char.
Definition nbsp : ascii := "160"%char.

(** [s.replace(/c/g, r)] for a one-character pattern [c]: every occurrence
    of [c] is replaced by [r], left to right; the replacement text is not
    scanned again. *)
Fixpoint replaceAll (c : ascii) (r : string) (s : string) : string :=
  match s with
  | EmptyString => EmptyString
  | String a t =>
      if Ascii.eqb a c then r ++ replaceAll c r t
      else String a (replaceAll c r t)
  end.

(** The white space and line terminators that [trim] strips, among the
    first 256 code units: tab, line feed, vertical tab, form feed, carriage
    return, space and no-break space. *)
Definition isSpace (a : ascii) : bool :=
  match N_of_ascii a with
  | 9 | 10 | 11 | 12 | 13 | 32 | 160 => true
  | _ => false
  end%N.

Fixpoint trimStart (s : string) : string :=
  match s with
  | EmptyString => EmptyString
  | String a t => if isSpace a then trimStart t else s
  end.

(** Drops trailing white space: a character is kept when it is not white
    space or when something is kept after it. *)
Fixpoint trimEnd (s : string) : string :=
  match s with
  | EmptyString => EmptyString
  | String a t =>
      match trimEnd t with
      | EmptyString => if isSpace a then EmptyString else String a EmptyString
      | t' => String a t'
      end
  end.

(** [s.trim()]. *)
Definition trim (s : string) : string := trimEnd (trimStart s).

(** [`${index}`] for an array index: its decimal numeral. *)
Definition ofIndex (n : nat) : string := NilEmpty.string_of_uint (Nat.to_uint n).

(** Whether [s] begins with [p]. *)
Fixpoint startsWith (p s : string) {struct p} : bool :=
  match p, s with
  | EmptyString, _ => true
  | String _ _, EmptyString => false
  | String a p', String b s' => Ascii.eqb a b && startsWith p' s'
  end.

(** [parts.join(sep)] with the empty separator. *)
Definition join (parts : list string) : string :=
  fold_right String.append EmptyString parts.

End Js.

(* ================================================================== *)
(** ** escapeHtml (app.js, lines 9-15) *)

(** Five chained global replacements, the ampersand first. *)
Definition escapeHtml (value : string) : string :=
  Js.replaceAll "'" "&#039;"
    (Js.replaceAll Js.dquote "&quot;"
      (Js.replaceAll ">" "&gt;"
        (Js.replaceAll "<" "&lt;"
          (Js.replaceAll "&" "&amp;" value)))).

(** The specification's wording of the same function: each of the five
    HTML-significant characters becomes its entity, every other character
    stays as it is. *)
Definition entityOf (c : ascii) : string :=
  if Ascii.eqb c "&" then "&amp;"
  else if Ascii.eqb c "<" then "&lt;"
  else if Ascii.eqb c ">" then "&gt;"
  else if Ascii.eqb c Js.dquote then "&quot;"
  else if Ascii.eqb c "'" then "&#039;"
  else String c EmptyString.

Fixpoint escapeSpec (s : string) : string :=
  match s with
  | EmptyString => EmptyString
  | String c t => entityOf c ++ escapeSpec t
  end.

(** The characters that can open or close a tag or an attribute value. *)
Definition isMarkupChar (c : ascii) : bool :=
  Ascii.eqb c "<" || Ascii.eqb c ">" || Ascii.eqb c Js.dquote || Ascii.eqb c "'".

Fixpoint allChars (p : ascii -> bool) (s : string) : bool :=
  match s with
  | EmptyString => true
  | String c t => p c && allChars p t
  end.

(* ================================================================== *)
(** ** Host model: how the browser reads the generated markup back *)

Module Html.

(** A character reference at the head of [s]: the character it denotes and
    the number of code units it spans.  The table holds the five references
    [escapeHtml] emits; in escaped text every ampersand starts one of them. *)
Definition charRef (s : string) : option (ascii * nat) :=
  if Js.startsWith "&amp;" s then Some ("&"%char, 5)
  else if Js.startsWith "&lt;" s then Some ("<"%char, 4)
  else if Js.startsWith "&gt;" s then Some (">"%char, 4)
  else if Js.startsWith "&quot;" s then Some (Js.dquote, 6)
  else if Js.startsWith "&#039;" s then Some ("'"%char, 6)
  else None.

(** Decoding of character data: [skip] counts the code units of a reference
    already decoded that are still to be passed over. *)
Fixpoint decode (skip : nat) (s : string) : string :=
  match s with
  | EmptyString => EmptyString
  | String c t =>
      match skip with
      | S k => decode k t
      | O =>
          match charRef s with
          | Some (ch, len) => String ch (decode (pred len) t)
          | None => String c (decode 0 t)
          end
      end
  end.

(** HTML-unescape of a piece of character data. *)
Definition unescapeHtml (s : string) : string := decode 0 s.

(** Preprocessing of the input stream: a carriage return becomes a line
    feed, and a line feed that follows a carriage return is dropped.
    [afterCR] tells whether the previous code unit was a carriage return. *)
Fixpoint normalizeNewlines (afterCR : bool) (s : string) : string :=
  match s with
  | EmptyString => EmptyString
  | String c t =>
      if afterCR && Ascii.eqb c Js.lf then normalizeNewlines false t
      else if Ascii.eqb c Js.cr then String Js.lf (normalizeNewlines true t)
      else String c (normalizeNewlines false t)
  end.

(** Null characters in the text of an element are ignored when the tree
    is built. *)
Fixpoint dropNul (s : string) : string :=
  match s with
  | EmptyString => EmptyString
  | String c t => if Ascii.eqb c Js.nul then dropNul t else String c (dropNul t)
  end.

(** The text content an element ends up with when the character data [s]
    is written into markup (escaped) and parsed. *)
Definition domText (s : string) : string := dropNul (normalizeNewlines false s).

(** The value sanitization of a text field: line feeds and carriage
    returns are removed from whatever is assigned to it. *)
Fixpoint stripNewlines (s : string) : string :=
  match s with
  | EmptyString => EmptyString
  | String c t =>
      if Ascii.eqb c Js.lf || Ascii.eqb c Js.cr then stripNewlines t
      else String c (stripNewlines t)
  end.

(** Tokenizer states for a fragment made of [<li ...>text</li>] rows. *)
Inductive Mode : Type :=
| Outside      (* between rows *)
| StartTag     (* inside the start tag, up to its [>] *)
| Text         (* character data of the row *)
| EndTag.      (* inside the end tag, up to its [>] *)

(** One pass over the preprocessed fragment; [cur] is the raw character
    data of the row being read.  A row is complete at the [>] of its end
    tag, and its text content is its character data with the references
    decoded and the null characters left out. *)
Fixpoint rows (m : Mode) (cur : string) (s : string) : list string :=
  match s with
  | EmptyString => []
  | String c t =>
      match m with
      | Outside => if Ascii.eqb c "<" then rows StartTag EmptyString t
                   else rows Outside EmptyString t
      | StartTag => if Ascii.eqb c ">" then rows Text EmptyString t
                    else rows StartTag EmptyString t
      | Text => if Ascii.eqb c "<" then rows EndTag cur t
                else rows Text (cur ++ String c EmptyString) t
      | EndTag => if Ascii.eqb c ">"
                  then dropNul (unescapeHtml cur) :: rows Outside EmptyString t
                  else rows EndTag cur t
      end
  end.

(** The text contents of the [li] elements the fragment parses to, in
    document order. *)
Definition textContents (markup : string) : list string :=
  rows Outside EmptyString (normalizeNewlines false markup).

End Html.

(** The template literal of line 34 around an already escaped text. *)
Definition liMarkup (index : nat) (escaped : string) : string :=
  "<li data-index=" ++ String Js.dquote (Js.ofIndex index)
    ++ String Js.dquote (" role=" ++ String Js.dquote ("option"
    ++ String Js.dquote (">" ++ escaped ++ "</li>"))).

(** The markup of one row, for a book that is a string. *)
Definition rowMarkup (index : nat) (book : string) : string :=
  liMarkup index (escapeHtml book).

(** [books.map((book, index) => ...)] from position [index] on. *)
Fixpoint rowsFrom (index : nat) (books : list string) : list string :=
  match books with
  | [] => []
  | book :: rest => rowMarkup index book :: rowsFrom (S index) rest
  end.

(** The string assigned to [innerHTML] (app.js, lines 33-35). *)
Definition listMarkup (books : list string) : string :=
  Js.join (rowsFrom 0 books).

(* ================================================================== *)
(** ** Values and completions *)

(** What [response.json()] can produce, and [undefined]. Only the zero test
    of a number matters to the script, so a number is kept as an integer. *)
Inductive value : Type :=
| VUndefined
| VNull
| VBool (b : bool)
| VNum (z : Z)
| VStr (s : string)
| VArr (elems : list value)
| VObj (fields : list (string * value)).

(** The outcome of a call or of an awaited promise: a result, or an
    exception identified by its [name]. *)
Inductive completion (A : Type) : Type :=
| Return (a : A)
| Throw (name : string).
Arguments Return {A} a.
Arguments Throw {A} name.

Definition bind {A B : Type} (c : completion A) (k : A -> completion B)
  : completion B :=
  match c with
  | Return a => k a
  | Throw name => Throw name
  end.

Notation "x <- c ;; k" := (bind c (fun x => k))
  (at level 61, c at next level, right associativity).

(** ToBoolean. *)
Definition truthy (v : value) : bool :=
  match v with
  | VUndefined | VNull => false
  | VBool b => b
  | VNum z => negb (z =? 0)%Z
  | VStr s => negb (String.length s =? 0)%nat
  | VArr _ | VObj _ => true
  end.

Fixpoint lookupField (k : string) (fields : list (string * value)) : option value :=
  match fields with
  | [] => None
  | (k', v) :: rest => if String.eqb k' k then Some v else lookupField k rest
  end.

(** [v.k] for a value that came out of JSON: a property read on [null] or
    [undefined] throws; an object yields its own field or [undefined];
    primitives and arrays have no such property. *)
Definition getProp (v : value) (k : string) : completion value :=
  match v with
  | VUndefined | VNull => Throw "TypeError"
  | VObj fields =>
      match lookupField k fields with
      | Some x => Return x
      | None => Return VUndefined
      end
  | _ => Return VUndefined
  end.

(** [null] and [undefined], on which a property read throws. *)
Definition nullish (v : value) : bool :=
  match v with
  | VUndefined | VNull => true
  | _ => false
  end.

(** The value carries a field named [k]. *)
Definition hasField (k : string) (v : value) : bool :=
  match v with
  | VObj fields =>
      match lookupField k fields with
      | Some _ => true
      | None => false
      end
  | _ => false
  end.

(** [escapeHtml(book)] on an arbitrary array element: only a string has a
    [replace] method. *)
Definition escapeHtmlV (book : value) : completion string :=
  match book with
  | VStr s => Return (escapeHtml s)
  | _ => Throw "TypeError"
  end.

(** The [map] callback of line 34 over array elements, from [index] on. *)
Fixpoint rowsFromV (index : nat) (books : list value) : completion (list string) :=
  match books with
  | [] => Return []
  | book :: rest =>
      e <- escapeHtmlV book ;;
      more <- rowsFromV (S index) rest ;;
      Return (liMarkup index e :: more)
  end.

(* ================================================================== *)
(** ** Widget and host state *)

(** A rendered row: what the script reads from it and writes to it. *)
Record Li : Type := { textContent : string; active : bool }.

Inductive Stage : Type :=
| AwaitFetch    (* suspended at [await fetch(...)] *)
| AwaitJson     (* suspended at [await response.json()] *)
| Settled.      (* the call of fetchSuggestions is over *)

Record Url : Type := { base : string; searchParams : list (string * string) }.

(** One call of [fetch]: its target, the state of its abort signal, and
    where the calling async function is suspended. *)
Record Request : Type := { url : Url; aborted : bool; stage : Stage }.

(** A pending timer; [query] is the value captured by the callback. *)
Record Timer : Type := { timerId : nat; due : Z; query : string }.

Record State : Type := {
  (* DOM *)
  inputValue : string;            (* input.value *)
  suggestionsUrl : string;        (* input.dataset.suggestionsUrl *)
  items : list Li;                (* the li elements of suggestionsList *)
  show : bool;                    (* suggestionsList has class "show" *)
  scrolled : list nat;            (* rows asked to scroll into view *)
  (* variables of the script *)
  activeIndex : Z;
  debounceTimer : option nat;
  controller : option nat;        (* request owning the current AbortController *)
  (* host *)
  clock : Z;                      (* milliseconds *)
  timers : list Timer;            (* scheduled, not yet fired *)
  nextTimer : nat;
  requests : list Request         (* every fetch so far; id = position *)
}.

Definition set_inputValue (x : string) (st : State) : State :=
  {| inputValue := x; suggestionsUrl := suggestionsUrl st; items := items st;
     show := show st; scrolled := scrolled st; activeIndex := activeIndex st;
     debounceTimer := debounceTimer st; controller := controller st;
     clock := clock st; timers := timers st; nextTimer := nextTimer st;
     requests := requests st |}.

(** [input.value = x] by the script: the field sanitizes what it is given. *)
Definition assignValue (x : string) (st : State) : State :=
  set_inputValue (Html.stripNewlines x) st.

Definition set_items (x : list Li) (st : State) : State :=
  {| inputValue := inputValue st; suggestionsUrl := suggestionsUrl st; items := x;
     show := show st; scrolled := scrolled st; activeIndex := activeIndex st;
     debounceTimer := debounceTimer st; controller := controller st;
     clock := clock st; timers := timers st; nextTimer := nextTimer st;
     requests := requests st |}.

Definition set_show (x : bool) (st : State) : State :=
  {| inputValue := inputValue st; suggestionsUrl := suggestionsUrl st; items := items st;
     show := x; scrolled := scrolled st; activeIndex := activeIndex st;
     debounceTimer := debounceTimer st; controller := controller st;
     clock := clock st; timers := timers st; nextTimer := nextTimer st;
     requests := requests st |}.

Definition set_scrolled (x : list nat) (st : State) : State :=
  {| inputValue := inputValue st; suggestionsUrl := suggestionsUrl st; items := items st;
     show := show st; scrolled := x; activeIndex := activeIndex st;
     debounceTimer := debounceTimer st; controller := controller st;
     clock := clock st; timers := timers st; nextTimer := nextTimer st;
     requests := requests st |}.

Definition set_activeIndex (x : Z) (st : State) : State :=
  {| inputValue := inputValue st; suggestionsUrl := suggestionsUrl st; items := items st;
     show := show st; scrolled := scrolled st; activeIndex := x;
     debounceTimer := debounceTimer st; controller := controller st;
     clock := clock st; timers := timers st; nextTimer := nextTimer st;
     requests := requests st |}.

Definition set_debounceTimer (x : option nat) (st : State) : State :=
  {| inputValue := inputValue st; suggestionsUrl := suggestionsUrl st; items := items st;
     show := show st; scrolled := scrolled st; activeIndex := activeIndex st;
     debounceTimer := x; controller := controller st;
     clock := clock st; timers := timers st; nextTimer := nextTimer st;
     requests := requests st |}.

Definition set_controller (x : option nat) (st : State) : State :=
  {| inputValue := inputValue st; suggestionsUrl := suggestionsUrl st; items := items st;
     show := show st; scrolled := scrolled st; activeIndex := activeIndex st;
     debounceTimer := debounceTimer st; controller := x;
     clock := clock st; timers := timers st; nextTimer := nextTimer st;
     requests := requests st |}.

Definition set_clock (x : Z) (st : State) : State :=
  {| inputValue := inputValue st; suggestionsUrl := suggestionsUrl st; items := items st;
     show := show st; scrolled := scrolled st; activeIndex := activeIndex st;
     debounceTimer := debounceTimer st; controller := controller st;
     clock := x; timers := timers st; nextTimer := nextTimer st;
     requests := requests st |}.

Definition set_timers (x : list Timer) (st : State) : State :=
  {| inputValue := inputValue st; suggestionsUrl := suggestionsUrl st; items := items st;
     show := show st; scrolled := scrolled st; activeIndex := activeIndex st;
     debounceTimer := debounceTimer st; controller := controller st;
     clock := clock st; timers := x; nextTimer := nextTimer st;
     requests := requests st |}.

Definition set_nextTimer (x : nat) (st : State) : State :=
  {| inputValue := inputValue st; suggestionsUrl := suggestionsUrl st; items := items st;
     show := show st; scrolled := scrolled st; activeIndex := activeIndex st;
     debounceTimer := debounceTimer st; controller := controller st;
     clock := clock st; timers := timers st; nextTimer := x;
     requests := requests st |}.

Definition set_requests (x : list Request) (st : State) : State :=
  {| inputValue := inputValue st; suggestionsUrl := suggestionsUrl st; items := items st;
     show := show st; scrolled := scrolled st; activeIndex := activeIndex st;
     debounceTimer := debounceTimer st; controller := controller st;
     clock := clock st; timers := timers st; nextTimer := nextTimer st;
     requests := x |}.

(** The widget when the script has just run: nothing rendered, nothing
    scheduled, nothing in flight. *)
Definition initial (value0 endpoint : string) : State :=
  {| inputValue := value0; suggestionsUrl := endpoint; items := [];
     show := false; scrolled := []; activeIndex := (-1)%Z;
     debounceTimer := None; controller := None;
     clock := 0%Z; timers := []; nextTimer := 1; requests := [] |}.

(** What the user sees of the widget. *)
Definition ui (st : State) : string * list Li * bool * Z :=
  (inputValue st, items st, show st, activeIndex st).

(** The text of the rows on display. *)
Definition texts (st : State) : list string := map textContent (items st).

(* ================================================================== *)
(** ** Renderer (app.js, lines 21-49) *)

Definition clearSuggestions (st : State) : State :=
  set_activeIndex (-1)%Z (set_show false (set_items [] st)).

(** The [innerHTML] setter: the host parses the fragment into rows, none
    of them carrying the class "active". *)
Definition set_innerHTML (markup : string) (st : State) : State :=
  set_items
    (map (fun t => {| textContent := t; active := false |})
         (Html.textContents markup)) st.

(** [renderSuggestions(books)].  An element that is not a string makes the
    [map] callback throw before anything is written. *)
Definition renderSuggestions (books : value) (st : State) : completion State :=
  match books with
  | VArr [] => Return (clearSuggestions st)
  | VArr elems =>
      parts <- rowsFromV 0 elems ;;
      Return (set_activeIndex (-1)%Z
                (set_show true (set_innerHTML (Js.join parts) st)))
  | _ => Return (clearSuggestions st)
  end.

(** The state in which the dropdown shows the rows [ss], none selected. *)
Definition displaying (ss : list string) (st : State) : State :=
  set_activeIndex (-1)%Z
    (set_show true
      (set_items (map (fun t => {| textContent := t; active := false |}) ss) st)).

(** The dropdown is open and has rows. *)
Definition isOpen (st : State) : bool :=
  show st && negb (length (items st) =? 0)%nat.

(** [items[i]] for a numeric index. *)
Definition itemAt (its : list Li) (i : Z) : option Li :=
  if (i <? 0)%Z then None else nth_error its (Z.to_nat i).

(** [item.classList.toggle("active", index === activeIndex)] over the rows,
    [index] being the position of the first of them. *)
Fixpoint toggleActive (ai : Z) (index : nat) (its : list Li) : list Li :=
  match its with
  | [] => []
  | it :: rest =>
      {| textContent := textContent it; active := (Z.of_nat index =? ai)%Z |}
        :: toggleActive ai (S index) rest
  end.

Definition setActiveSuggestion (its : list Li) (st : State) : State :=
  let st1 := set_items (toggleActive (activeIndex st) 0 its) st in
  if (0 <=? activeIndex st1)%Z then
    match itemAt (items st1) (activeIndex st1) with
    | Some _ => set_scrolled (scrolled st1 ++ [Z.to_nat (activeIndex st1)]) st1
    | None => st1
    end
  else st1.

(* ================================================================== *)
(** ** Request coordinator (app.js, lines 51-70 and 81-90) *)

(** [url.searchParams.set(k, v)]: the first pair named [k] takes the value,
    later ones are dropped; a new pair goes last. *)
Fixpoint paramsSet (k v : string) (ps : list (string * string)) : list (string * string) :=
  match ps with
  | [] => [(k, v)]
  | (k', v') :: rest =>
      if String.eqb k' k
      then (k, v) :: filter (fun p => negb (String.eqb (fst p) k)) rest
      else (k', v') :: paramsSet k v rest
  end.

(** The request target for a query (lines 58-61).  The configured endpoint
    is taken to be a valid URL reference, so that the constructor does not
    throw, and to carry no query string of its own. *)
Definition requestUrl (endpoint q : string) : Url :=
  {| base := endpoint;
     searchParams := paramsSet "limit" "10" (paramsSet "q" q []) |}.

Fixpoint updateAt {A : Type} (n : nat) (f : A -> A) (l : list A) : list A :=
  match l, n with
  | [], _ => []
  | x :: rest, O => f x :: rest
  | x :: rest, S k => x :: updateAt k f rest
  end.

Definition markAborted (r : Request) : Request :=
  {| url := url r; aborted := true; stage := stage r |}.

Definition setStage (s : Stage) (r : Request) : Request :=
  {| url := url r; aborted := aborted r; stage := s |}.

(** [controller.abort()] on the controller of request [id]. *)
Definition abort (id : nat) (st : State) : State :=
  set_requests (updateAt id markAborted (requests st)) st.

(** [fetchSuggestions(query)] up to its first suspension: the previous
    controller is aborted, a fresh one replaces it, the request is sent. *)
Definition fetchSuggestions_start (q : string) (st : State) : State :=
  let st1 := match controller st with
             | Some id => abort id st
             | None => st
             end in
  let id := length (requests st1) in
  set_requests
    (requests st1 ++ [{| url := requestUrl (suggestionsUrl st1) q;
                         aborted := false; stage := AwaitFetch |}])
    (set_controller (Some id) st1).

(** [payload.books || []] (line 69). *)
Definition booksOf (payload : value) : completion value :=
  books <- getProp payload "books" ;;
  Return (if truthy books then books else VArr []).

(** What the [fetch] promise settles to: a response with its [ok] flag, or
    a rejection. *)
Inductive FetchOutcome : Type :=
| Resolved (ok : bool)
| Rejected (name : string).

(** What the [await] of a request with an aborted signal yields. *)
Definition abortError : string := "AbortError".

(** Lines 63-66: the value [fetchSuggestions] completes with as soon as the
    [fetch] promise settles, or [None] when it goes on to read the body. *)
Definition afterFetch (o : FetchOutcome) : option (completion value) :=
  match o with
  | Rejected name => Some (Throw name)
  | Resolved false => Some (Return (VArr []))
  | Resolved true => None
  end.

(** Lines 68-69: the value [fetchSuggestions] completes with once the body
    is parsed, or its parsing has failed. *)
Definition afterJson (o : completion value) : completion value :=
  payload <- o ;; booksOf payload.

(** The value a call of [fetchSuggestions] whose signal is never aborted
    completes with (lines 63-69), given what the [fetch] promise settles
    to and what reading the body gives. *)
Definition fetchSuggestions_result (o : FetchOutcome) (body : completion value)
  : completion value :=
  match afterFetch o with
  | Some res => res
  | None => afterJson body
  end.

(** The body of the timer callback after [await fetchSuggestions(query)]
    (lines 82-89): render the books; on any error but an abort, clear. *)
Definition callbackTail (r : completion value) (st : State) : State :=
  match (books <- r ;; renderSuggestions books st) with
  | Return st' => st'
  | Throw name =>
      if negb (String.eqb name abortError) then clearSuggestions st else st
  end.

(** The [fetch] promise of request [id] settles.  An aborted signal makes
    the await throw an AbortError whatever the network has to say. *)
Definition fetchSettles (id : nat) (o : FetchOutcome) (st : State) : State :=
  match nth_error (requests st) id with
  | Some r =>
      match stage r with
      | AwaitFetch =>
          if aborted r then
            callbackTail (Throw abortError)
              (set_requests (updateAt id (setStage Settled) (requests st)) st)
          else
            match afterFetch o with
            | Some res =>
                callbackTail res
                  (set_requests (updateAt id (setStage Settled) (requests st)) st)
            | None =>
                set_requests (updateAt id (setStage AwaitJson) (requests st)) st
            end
      | _ => st
      end
  | None => st
  end.

(** The [response.json()] promise of request [id] settles. *)
Definition jsonSettles (id : nat) (o : completion value) (st : State) : State :=
  match nth_error (requests st) id with
  | Some r =>
      match stage r with
      | AwaitJson =>
          let st1 := set_requests (updateAt id (setStage Settled) (requests st)) st in
          if aborted r then callbackTail (Throw abortError) st1
          else callbackTail (afterJson o) st1
      | _ => st
      end
  | None => st
  end.

(* ================================================================== *)
(** ** Timers *)

(** [window.clearTimeout(handle)]; [null] and spent handles are ignored. *)
Definition clearTimeout (handle : option nat) (st : State) : State :=
  match handle with
  | Some id => set_timers (filter (fun t => negb (Nat.eqb (timerId t) id)) (timers st)) st
  | None => st
  end.

(** [debounceTimer = window.setTimeout(callback, delay)], the callback
    holding [q]. *)
Definition setTimeout (q : string) (delay : Z) (st : State) : State :=
  let id := nextTimer st in
  set_debounceTimer (Some id)
    (set_nextTimer (S id)
      (set_timers (timers st ++ [{| timerId := id; due := (clock st + delay)%Z;
                                    query := q |}]) st)).

Definition findTimer (id : nat) (st : State) : option Timer :=
  find (fun t => Nat.eqb (timerId t) id) (timers st).

(** Timer [id] fires, if it is scheduled and due: it leaves the table and
    its callback runs up to the first suspension. *)
Definition timerFires (id : nat) (st : State) : State :=
  match findTimer id st with
  | Some t =>
      if (due t <=? clock st)%Z then
        fetchSuggestions_start (query t)
          (set_timers (filter (fun t' => negb (Nat.eqb (timerId t') id)) (timers st)) st)
      else st
  | None => st
  end.

(* ================================================================== *)
(** ** Event handlers (app.js, lines 72-139) *)

(** [text || empty] on a string: the empty string is the only falsy one. *)
Definition orEmpty (text : string) : string :=
  if (String.length text =? 0)%nat then EmptyString else text.

(** The "input" listener; [input.value] already holds the edited text. *)
Definition onInput (st : State) : State :=
  let q := Js.trim (inputValue st) in
  if (String.length q <? 2)%nat then clearSuggestions st
  else setTimeout q 180 (clearTimeout (debounceTimer st) st).

(** The "mousedown" listener of the list; [target] is the row that
    [event.target.closest("li")] finds, if any. *)
Definition onMousedown (target : option nat) (st : State) : State :=
  match target with
  | None => st
  | Some i =>
      match nth_error (items st) i with
      | Some item => clearSuggestions (assignValue (orEmpty (textContent item)) st)
      | None => st
      end
  end.

(** The "keydown" listener.  The second component tells whether
    [event.preventDefault()] was called. *)
Definition onKeydown (key : string) (st : State) : State * bool :=
  let its := items st in
  if (length its =? 0)%nat then (st, false)
  else if String.eqb key "ArrowDown" then
    let st1 := set_activeIndex
                 (Z.rem (activeIndex st + 1) (Z.of_nat (length its))) st in
    (setActiveSuggestion its st1, true)
  else if String.eqb key "ArrowUp" then
    let st1 := set_activeIndex
                 (Z.rem (activeIndex st - 1 + Z.of_nat (length its))
                        (Z.of_nat (length its))) st in
    (setActiveSuggestion its st1, true)
  else if String.eqb key "Enter" && (0 <=? activeIndex st)%Z then
    match itemAt its (activeIndex st) with
    | Some item =>
        (clearSuggestions (assignValue (orEmpty (textContent item)) st), true)
    | None => (st, true)   (* the property read throws, after preventDefault *)
    end
  else if String.eqb key "Escape" then (clearSuggestions st, false)
  else (st, false).

(** The "click" listener of the document; [inForm] tells whether
    [event.target.closest(".recommend-form")] finds an element. *)
Definition onClick (inForm : bool) (st : State) : State :=
  if negb inForm then clearSuggestions st else st.

(* ================================================================== *)
(** ** The event loop *)

Inductive Event : Type :=
| Input (text : string)      (* the user edits the field, which now holds [text] *)
| Keydown (key : string)
| Mousedown (target : option nat)
| Click (inForm : bool)
| Elapse (ms : Z)                              (* time passes *)
| TimerFires (id : nat)
| FetchSettles (id : nat) (o : FetchOutcome)
| JsonSettles (id : nat) (o : completion value).

Definition step (st : State) (e : Event) : State :=
  match e with
  | Input text => onInput (set_inputValue text st)
  | Keydown key => fst (onKeydown key st)
  | Mousedown target => onMousedown target st
  | Click inForm => onClick inForm st
  | Elapse ms => if (0 <=? ms)%Z then set_clock (clock st + ms)%Z st else st
  | TimerFires id => timerFires id st
  | FetchSettles id o => fetchSettles id o st
  | JsonSettles id o => jsonSettles id o st
  end.

Definition run (st : State) (evs : list Event) : State := fold_left step evs st.

(** The states the widget can be in. *)
Definition reachable (st : State) : Prop :=
  exists value0 endpoint evs, st = run (initial value0 endpoint) evs.

(** Every scheduled timer that is due fires, oldest first. *)
Definition fireDue (st : State) : State :=
  fold_left (fun s t => timerFires (timerId t) s) (timers st) st.

(** [ms] milliseconds pass and the timers that have come due fire. *)
Definition wait (ms : Z) (st : State) : State := fireDue (step st (Elapse ms)).

(** A burst of edits: each one comes [fst] milliseconds after the previous
    event. *)
Fixpoint typeBurst (burst : list (Z * string)) (st : State) : State :=
  match burst with
  | [] => st
  | (ms, text) :: rest => typeBurst rest (step (wait ms st) (Input text))
  end.

(** The text of the last edit of a burst that starts with [first]. *)
Definition lastText (first : string) (rest : list (Z * string)) : string :=
  last (map snd rest) first.

(** The targets of the requests sent so far, oldest first. *)
Definition sent (st : State) : list Url := map url (requests st).

(** The request issued last, if any. *)
Definition latest (st : State) : option nat :=
  match length (requests st) with
  | O => None
  | S n => Some n
  end.

(* ================================================================== *)
(** ** Initialisation (app.js, lines 1-7) *)

Inductive Target : Type := OnInput | OnList | OnDocument.

(** What the two [document.querySelector] calls find: the text field with
    its value and [data-suggestions-url], and whether the list exists. *)
Record Document : Type := {
  bookInput : option (string * string);
  suggestionsList : bool
}.

(** The page after the script has run: the listeners it installed and the
    state it owns, if any. *)
Record Page : Type := {
  listeners : list (Target * string);
  widget : option State
}.

Definition main (doc : Document) : Page :=
  match bookInput doc, suggestionsList doc with
  | Some (value0, endpoint), true =>
      {| listeners := [(OnInput, "input"); (OnList, "mousedown");
                       (OnInput, "keydown"); (OnDocument, "click")];
         widget := Some (initial value0 endpoint) |}
  | _, _ => {| listeners := []; widget := None |}
  end.

(** The listener an event is delivered to; timer and promise callbacks
    exist only inside the widget. *)
Definition listenerOf (e : Event) : option (Target * string) :=
  match e with
  | Input _ => Some (OnInput, "input")
  | Keydown _ => Some (OnInput, "keydown")
  | Mousedown _ => Some (OnList, "mousedown")
  | Click _ => Some (OnDocument, "click")
  | _ => None
  end.

Definition sameListener (a b : Target * string) : bool :=
  match fst a, fst b with
  | OnInput, OnInput | OnList, OnList | OnDocument, OnDocument =>
      String.eqb (snd a) (snd b)
  | _, _ => false
  end.

Definition dispatch (p : Page) (e : Event) : Page :=
  match widget p with
  | None => p
  | Some st =>
      match listenerOf e with
      | Some l =>
          if existsb (sameListener l) (listeners p)
          then {| listeners := listeners p; widget := Some (step st e) |}
          else p
      | None => {| listeners := listeners p; widget := Some (step st e) |}
      end
  end.

(* ================================================================== *)
(** ** Invariants of the reachable states *)

(** At most one timer is scheduled, and [debounceTimer] is its handle. *)
Definition timerOwned (st : State) : Prop :=
  timers st = []
  \/ exists t, timers st = [t] /\ debounceTimer st = Some (timerId t).

(** A timer holding [q], scheduled at the current time. *)
Definition justScheduled (q : string) (st : State) : Prop :=
  exists id,
    timers st = [{| timerId := id; due := (clock st + 180)%Z; query := q |}]
    /\ debounceTimer st = Some id.

(** The controller belongs to the request issued last, whose signal is
    not aborted; the signal of every earlier request is. *)
Definition onlyLatestLive (st : State) : Prop :=
  controller st = latest st
  /\ forall id r, nth_error (requests st) id = Some r ->
       aborted r = negb (match latest st with
                         | Some n => Nat.eqb id n
                         | None => false
                         end).

(** The index is [-1] or the position of a row. *)
Definition indexInRange (st : State) : Prop :=
  (-1 <= activeIndex st < Z.of_nat (length (items st)))%Z.

(** The dropdown is shown exactly when it has rows. *)
Definition shownIffRows (st : State) : Prop :=
  show st = negb (length (items st) =? 0)%nat.

Record Inv (st : State) : Prop := {
  inv_timer : timerOwned st;
  inv_requests : onlyLatestLive st;
  inv_index : indexInRange st;
  inv_shown : shownIffRows st
}.

(* ================================================================== *)
(** ** Sample data *)

Definition dunePayload : value :=
  VObj [("books", VArr [VStr "Dune"; VStr "Dune Messiah"; VStr "Foundation"])].

(** The user has typed "du", the timer has fired and the three books have
    arrived. *)
Definition duneOpen : State :=
  run (initial "du" "/api/suggest")
      [Input "du"; Elapse 180; TimerFires 1;
       FetchSettles 0 (Resolved true); JsonSettles 0 (Return dunePayload)].

(** The same, with the second row selected. *)
Definition duneSecond : State :=
  run duneOpen [Keydown "ArrowDown"; Keydown "ArrowDown"].

(** "du" is typed, then one character is deleted 50 ms later. *)
Definition shortAfterLong : State :=
  run (initial "" "/api/suggest") [Input "du"; Elapse 50; Input "d"].

(** Two requests in flight: the one for "du" was superseded by the one for
    "dun" before it resolved. *)
Definition twoInFlight : State :=
  run (initial "" "/api/suggest")
      [Input "du"; Elapse 180; TimerFires 1;
       Input "dun"; Elapse 180; TimerFires 2].

(** Two titles with a line break inside: a line feed, a carriage return. *)
Definition lfTitle : string := String "a" (String Js.lf (String "b" EmptyString)).
Definition crTitle : string := String "a" (String Js.cr (String "b" EmptyString)).

(** The dropdown shows the one title [lfTitle], and it is selected. *)
Definition lineBreakSelected : State :=
  run (initial "du" "/api/suggest")
      [Input "du"; Elapse 180; TimerFires 1; FetchSettles 0 (Resolved true);
       JsonSettles 0 (Return (VObj [("books", VArr [VStr lfTitle])]));
       Keydown "ArrowDown"].

(** The second request has answered with its headers; its body and the
    whole answer of the first one are still to come. *)
Definition secondAwaitsBody : State :=
  run twoInFlight [FetchSettles 1 (Resolved true)].

(* ================================================================== *)
(** ** Further notions used by the properties *)

(** The five characters [escapeHtml] replaces. *)
Definition needsEscape (c : ascii) : bool :=
  Ascii.eqb c "&" || Ascii.eqb c "<" || Ascii.eqb c ">"
  || Ascii.eqb c Js.dquote || Ascii.eqb c "'".

(** The number of rows carrying the class "active". *)
Definition activeCount (its : list Li) : nat := length (filter active its).

(** A query of two code units or more. *)
Definition longQuery (q : string) : bool := (2 <=? String.length q)%nat.

(** Every scheduled callback holds a long query, and every request sent
    went to the configured endpoint with a long [q] and [limit=10]. *)
Definition wellTargeted (st : State) : Prop :=
  Forall (fun t => longQuery (query t) = true) (timers st)
  /\ Forall (fun r => exists q, url r = requestUrl (suggestionsUrl st) q
                                /\ longQuery q = true) (requests st).

(** Case analysis on all 256 code units. *)
Ltac each_char c := destruct c as [[] [] [] [] [] [] [] []].

(* ================================================================== *)
(** * Properties *)

(** ** Strings and escaping *)

Lemma app_assoc_s (a b c : string) : (a ++ b) ++ c = a ++ (b ++ c).
Proof. induction a as [|x a IH]; simpl; [reflexivity | now rewrite IH]. Qed.

Lemma app_nil_s (a : string) : a ++ EmptyString = a.
Proof. induction a as [|x a IH]; simpl; [reflexivity | now rewrite IH]. Qed.

Lemma allChars_app (p : ascii -> bool) (a b : string) :
  allChars p (a ++ b) = allChars p a && allChars p b.
Proof.
  induction a as [|x a IH]; simpl; [reflexivity|].
  now rewrite IH, andb_assoc.
Qed.

(** One step of the replacement chain: the head character turns into its
    entity and the chain goes on with the tail. *)
Lemma escapeHtml_cons (c : ascii) (t : string) :
  escapeHtml (String c t) = entityOf c ++ escapeHtml t.
Proof. each_char c; reflexivity. Qed.

Lemma escapeHtml_escapeSpec (s : string) : escapeHtml s = escapeSpec s.
Proof.
  induction s as [|c t IH]; [reflexivity|].
  rewrite escapeHtml_cons, IH. reflexivity.
Qed.

Lemma entityOf_safe (c : ascii) :
  allChars (fun x => negb (isMarkupChar x)) (entityOf c) = true.
Proof. each_char c; reflexivity. Qed.

Lemma escapeHtml_safe (s : string) :
  allChars (fun x => negb (isMarkupChar x)) (escapeHtml s) = true.
Proof.
  induction s as [|c t IH]; [reflexivity|].
  rewrite escapeHtml_cons, allChars_app, entityOf_safe, IH. reflexivity.
Qed.

Lemma decode_entity (c : ascii) (rest : string) :
  Html.decode 0 (entityOf c ++ rest) = String c (Html.decode 0 rest).
Proof. each_char c; reflexivity. Qed.

Lemma unescape_escape (s : string) : Html.unescapeHtml (escapeHtml s) = s.
Proof.
  unfold Html.unescapeHtml.
  induction s as [|c t IH]; [reflexivity|].
  rewrite escapeHtml_cons, decode_entity, IH. reflexivity.
Qed.

(** The script tag of the specification, escaped. *)
Example escapeHtml_script :
  escapeHtml "<script>alert(1)</script>" = "&lt;script&gt;alert(1)&lt;/script&gt;".
Proof. reflexivity. Qed.

(** ** Reading the rendered rows back *)

Lemma rows_StartTag_skip (d rest : string) :
  allChars (fun x => negb (Ascii.eqb x ">")) d = true ->
  Html.rows Html.StartTag EmptyString (d ++ rest) = Html.rows Html.StartTag EmptyString rest.
Proof.
  induction d as [|c d IH]; simpl; [reflexivity|].
  intros H. apply andb_true_iff in H as [Hc Hd].
  destruct (Ascii.eqb c ">"); [discriminate|]. now apply IH.
Qed.

Lemma rows_Text_run (e cur rest : string) :
  allChars (fun x => negb (Ascii.eqb x "<")) e = true ->
  Html.rows Html.Text cur (e ++ rest) = Html.rows Html.Text (cur ++ e) rest.
Proof.
  revert cur. induction e as [|c e IH]; simpl; intros cur H.
  - now rewrite app_nil_s.
  - apply andb_true_iff in H as [Hc He].
    destruct (Ascii.eqb c "<"); [discriminate|].
    rewrite IH by assumption. rewrite app_assoc_s. reflexivity.
Qed.

Lemma allChars_weaken (p q : ascii -> bool) (s : string) :
  (forall c, p c = true -> q c = true) ->
  allChars p s = true -> allChars q s = true.
Proof.
  intros Hpq. induction s as [|c s IH]; simpl; [reflexivity|].
  intros H. apply andb_true_iff in H as [Hc Hs].
  now rewrite (Hpq _ Hc), IH.
Qed.

Lemma escapeHtml_no_lt (s : string) :
  allChars (fun x => negb (Ascii.eqb x "<")) (escapeHtml s) = true.
Proof.
  apply (allChars_weaken (fun x => negb (isMarkupChar x))); [|apply escapeHtml_safe].
  intros c. unfold isMarkupChar. destruct (Ascii.eqb c "<"); simpl; congruence.
Qed.

(** A decimal numeral holds digits only. *)
Lemma string_of_uint_no_gt (d : Decimal.uint) :
  allChars (fun x => negb (Ascii.eqb x ">")) (NilEmpty.string_of_uint d) = true.
Proof. induction d; simpl; auto. Qed.

(** A row of preprocessed markup: the tokenizer gives its text back, with
    the null characters left out. *)
Lemma rows_row (index : nat) (book rest : string) :
  Html.rows Html.Outside EmptyString (rowMarkup index book ++ rest)
  = Html.dropNul book :: Html.rows Html.Outside EmptyString rest.
Proof.
  unfold rowMarkup, liMarkup. cbn -[escapeHtml Js.ofIndex Html.rows].
  cbn -[escapeHtml Js.ofIndex Html.unescapeHtml Html.dropNul].
  rewrite app_assoc_s, rows_StartTag_skip by apply string_of_uint_no_gt.
  cbn -[escapeHtml Js.ofIndex Html.unescapeHtml Html.dropNul].
  rewrite app_assoc_s, rows_Text_run by apply escapeHtml_no_lt.
  cbn -[escapeHtml Js.ofIndex Html.unescapeHtml Html.dropNul].
  now rewrite unescape_escape.
Qed.

(** *** Preprocessing of the generated markup *)

Lemma string_of_uint_no_cr (d : Decimal.uint) :
  allChars (fun x => negb (Ascii.eqb x Js.cr)) (NilEmpty.string_of_uint d) = true.
Proof. induction d; simpl; auto. Qed.

(** Text without carriage returns passes through unchanged. *)
Lemma normalize_plain (p rest : string) :
  allChars (fun x => negb (Ascii.eqb x Js.cr)) p = true ->
  Html.normalizeNewlines false (p ++ rest) = p ++ Html.normalizeNewlines false rest.
Proof.
  induction p as [|c p IH]; simpl; [reflexivity|].
  intros H. apply andb_true_iff in H as [Hc Hp].
  destruct (Ascii.eqb c Js.cr); [discriminate|]. now rewrite IH.
Qed.

(** Escaping and preprocessing commute, up to the tag that follows. *)
Lemma normalize_escaped (s rest : string) (afterCR : bool) :
  Html.normalizeNewlines afterCR (escapeSpec s ++ String "<" rest)
  = escapeSpec (Html.normalizeNewlines afterCR s)
    ++ String "<" (Html.normalizeNewlines false rest).
Proof.
  revert afterCR. induction s as [|c t IH]; intros afterCR.
  - destruct afterCR; reflexivity.
  - cbn [escapeSpec]. rewrite app_assoc_s.
    each_char c; destruct afterCR; cbn; rewrite IH; reflexivity.
Qed.

Lemma normalize_row (index : nat) (book rest : string) :
  Html.normalizeNewlines false (rowMarkup index book ++ rest)
  = rowMarkup index (Html.normalizeNewlines false book)
    ++ Html.normalizeNewlines false rest.
Proof.
  unfold rowMarkup, liMarkup. rewrite !escapeHtml_escapeSpec.
  cbn -[escapeSpec Js.ofIndex Html.normalizeNewlines].
  cbn -[escapeSpec Js.ofIndex].
  rewrite !app_assoc_s, normalize_plain by apply string_of_uint_no_cr.
  cbn -[escapeSpec Js.ofIndex].
  rewrite !app_assoc_s.
  change ("</li>" ++ rest) with (String "<" ("/li>" ++ rest)).
  rewrite normalize_escaped. reflexivity.
Qed.

Lemma join_rowsFrom_cons (index : nat) (book : string) (rest : list string) :
  Js.join (rowsFrom index (book :: rest))
  = rowMarkup index book ++ Js.join (rowsFrom (S index) rest).
Proof. reflexivity. Qed.

Lemma normalize_rowsFrom (books : list string) (index : nat) :
  Html.normalizeNewlines false (Js.join (rowsFrom index books))
  = Js.join (rowsFrom index (map (Html.normalizeNewlines false) books)).
Proof.
  revert index. induction books as [|b bs IH]; intros index; [reflexivity|].
  cbn [map]. rewrite !join_rowsFrom_cons, normalize_row, IH. reflexivity.
Qed.

Lemma rows_rowsFrom (books : list string) (index : nat) :
  Html.rows Html.Outside EmptyString (Js.join (rowsFrom index books))
  = map Html.dropNul books.
Proof.
  revert index. induction books as [|b bs IH]; intros index; [reflexivity|].
  rewrite join_rowsFrom_cons, rows_row, IH. reflexivity.
Qed.

(** The rows of a rendered list, read back: each string with its line
    breaks normalised and its null characters dropped. *)
Lemma textContents_rowsFrom (books : list string) (index : nat) :
  Html.textContents (Js.join (rowsFrom index books)) = map Html.domText books.
Proof.
  unfold Html.textContents, Html.domText.
  rewrite normalize_rowsFrom, rows_rowsFrom, map_map. reflexivity.
Qed.

Lemma textContents_listMarkup (books : list string) :
  Html.textContents (listMarkup books) = map Html.domText books.
Proof. apply textContents_rowsFrom. Qed.

(** A carriage return followed by a line feed is one line break, a lone
    carriage return is one too, and the null character disappears. *)
Example domText_sample :
  Html.domText (String "a" (String Js.cr (String Js.lf (String "b"
                 (String Js.cr (String Js.nul (String "c" EmptyString)))))))
  = String "a" (String Js.lf (String "b" (String Js.lf (String "c" EmptyString)))).
Proof. reflexivity. Qed.

(** A string without carriage return and null character is its own text
    content. *)
Lemma domText_plain (s : string) :
  allChars (fun c => negb (Ascii.eqb c Js.cr || Ascii.eqb c Js.nul)) s = true ->
  Html.domText s = s.
Proof.
  unfold Html.domText. induction s as [|c t IH]; [reflexivity|].
  cbn [allChars]. intros H. apply andb_true_iff in H as [Hc Ht].
  cbn [Html.normalizeNewlines andb].
  destruct (Ascii.eqb c Js.cr); [discriminate|].
  cbn [Html.dropNul]. destruct (Ascii.eqb c Js.nul); [discriminate|].
  now rewrite IH.
Qed.

(* ================================================================== *)
(** ** Field-level facts about the handlers *)

Lemma orEmpty_id (s : string) : orEmpty s = s.
Proof. unfold orEmpty. destruct s; reflexivity. Qed.

Lemma items_nonempty_length (st : State) :
  items st <> [] -> (length (items st) =? 0)%nat = false.
Proof. destruct (items st); [congruence | reflexivity]. Qed.

Lemma length_toggleActive (ai : Z) (its : list Li) (index : nat) :
  length (toggleActive ai index its) = length its.
Proof.
  revert index. induction its as [|it its IH]; intros index; simpl;
    [reflexivity | now rewrite IH].
Qed.

Lemma activeIndex_setActiveSuggestion (its : list Li) (st : State) :
  activeIndex (setActiveSuggestion its st) = activeIndex st.
Proof.
  unfold setActiveSuggestion. cbn.
  destruct (0 <=? activeIndex st)%Z; [|reflexivity].
  destruct (itemAt _ _); reflexivity.
Qed.

Lemma items_setActiveSuggestion (its : list Li) (st : State) :
  items (setActiveSuggestion its st) = toggleActive (activeIndex st) 0 its.
Proof.
  unfold setActiveSuggestion. cbn.
  destruct (0 <=? activeIndex st)%Z; [|reflexivity].
  destruct (itemAt _ _); reflexivity.
Qed.

Lemma show_setActiveSuggestion (its : list Li) (st : State) :
  show (setActiveSuggestion its st) = show st.
Proof.
  unfold setActiveSuggestion. cbn.
  destruct (0 <=? activeIndex st)%Z; [|reflexivity].
  destruct (itemAt _ _); reflexivity.
Qed.

Lemma items_nonempty_pos (st : State) :
  items st <> [] -> (0 < Z.of_nat (length (items st)))%Z.
Proof. destruct (items st); [congruence | simpl; lia]. Qed.

Lemma onKeydown_ArrowDown (st : State) :
  items st <> [] ->
  onKeydown "ArrowDown" st
  = (setActiveSuggestion (items st)
       (set_activeIndex
          (Z.rem (activeIndex st + 1) (Z.of_nat (length (items st)))) st), true).
Proof.
  intros H. unfold onKeydown. rewrite items_nonempty_length by assumption.
  reflexivity.
Qed.

Lemma onKeydown_ArrowUp (st : State) :
  items st <> [] ->
  onKeydown "ArrowUp" st
  = (setActiveSuggestion (items st)
       (set_activeIndex
          (Z.rem (activeIndex st - 1 + Z.of_nat (length (items st)))
                 (Z.of_nat (length (items st)))) st), true).
Proof.
  intros H. unfold onKeydown. rewrite items_nonempty_length by assumption.
  reflexivity.
Qed.

(** ** Selection state machine: the arrow keys *)

(** ArrowDown is the specified transition: no selection goes to the first
    row, row [i] to row [(i+1) mod N]. *)
Lemma arrowDown_index (st : State) :
  items st <> [] ->
  (-1 <= activeIndex st < Z.of_nat (length (items st)))%Z ->
  activeIndex (fst (onKeydown "ArrowDown" st))
  = ((activeIndex st + 1) mod Z.of_nat (length (items st)))%Z.
Proof.
  intros Hne Hi. rewrite onKeydown_ArrowDown by assumption. cbn [fst].
  rewrite activeIndex_setActiveSuggestion. cbn.
  pose proof (items_nonempty_pos st Hne).
  apply Z.rem_mod_nonneg; lia.
Qed.

(** ArrowUp from a selected row is the specified transition. *)
Lemma arrowUp_selected_index (st : State) :
  items st <> [] ->
  (0 <= activeIndex st < Z.of_nat (length (items st)))%Z ->
  activeIndex (fst (onKeydown "ArrowUp" st))
  = ((activeIndex st - 1 + Z.of_nat (length (items st)))
       mod Z.of_nat (length (items st)))%Z.
Proof.
  intros Hne Hi. rewrite onKeydown_ArrowUp by assumption. cbn [fst].
  rewrite activeIndex_setActiveSuggestion. cbn.
  pose proof (items_nonempty_pos st Hne).
  apply Z.rem_mod_nonneg; lia.
Qed.

(** C3 - keyboard wrap.  ArrowUp pressed while no row is selected, in a
    dropdown of [N >= 2] rows, selects row [N-2]: the row before the last
    one, not the last row [N-1] the transition table asks for. *)
Theorem arrowUp_noSelection_index (st : State) :
  (2 <= length (items st))%nat ->
  activeIndex st = (-1)%Z ->
  activeIndex (fst (onKeydown "ArrowUp" st)) = (Z.of_nat (length (items st)) - 2)%Z
  /\ activeIndex (fst (onKeydown "ArrowUp" st)) <> (Z.of_nat (length (items st)) - 1)%Z.
Proof.
  intros HN Hi.
  assert (Hne : items st <> []) by (destruct (items st); simpl in HN; [lia | congruence]).
  rewrite onKeydown_ArrowUp by assumption. cbn [fst].
  rewrite activeIndex_setActiveSuggestion. cbn. rewrite Hi.
  replace (-1 - 1 + Z.of_nat (length (items st)))%Z
    with (Z.of_nat (length (items st)) - 2)%Z by lia.
  rewrite Z.rem_small by lia. lia.
Qed.

(** With the three sample books and no selection, ArrowUp selects row 1. *)
Lemma arrowUp_noSelection_index_witness :
  (2 <= length (items duneOpen))%nat
  /\ activeIndex duneOpen = (-1)%Z
  /\ activeIndex (fst (onKeydown "ArrowUp" duneOpen)) = 1%Z
  /\ activeIndex (fst (onKeydown "ArrowUp" duneOpen)) <> 2%Z.
Proof.
  assert (H2 : (2 <= length (items duneOpen))%nat) by (vm_compute; lia).
  assert (Hi : activeIndex duneOpen = (-1)%Z) by reflexivity.
  split; [exact H2|]. split; [exact Hi|].
  exact (arrowUp_noSelection_index duneOpen H2 Hi).
Defined.

(** With three rows, ArrowDown from the last row wraps to the first. *)
Example arrowDown_wraps :
  activeIndex (run duneOpen [Keydown "ArrowDown"; Keydown "ArrowDown";
                             Keydown "ArrowDown"]) = 2%Z
  /\ activeIndex (run duneOpen [Keydown "ArrowDown"; Keydown "ArrowDown";
                                Keydown "ArrowDown"; Keydown "ArrowDown"]) = 0%Z.
Proof. split; vm_compute; reflexivity. Qed.

(** ** Selection state machine: Enter *)

Lemma itemAt_texts (its : list Li) (i : Z) (s : string) :
  (0 <= i)%Z ->
  nth_error (map textContent its) (Z.to_nat i) = Some s ->
  exists item, itemAt its i = Some item /\ textContent item = s.
Proof.
  intros Hi H. unfold itemAt.
  destruct (Z.ltb_spec i 0) as [Hlt|_]; [lia|].
  rewrite nth_error_map in H.
  destruct (nth_error its (Z.to_nat i)) as [item|]; [|discriminate].
  exists item. split; [reflexivity|]. now inversion H.
Qed.

Lemma stripNewlines_plain (s : string) :
  allChars (fun c => negb (Ascii.eqb c Js.lf || Ascii.eqb c Js.cr)) s = true ->
  Html.stripNewlines s = s.
Proof.
  induction s as [|c t IH]; [reflexivity|].
  cbn [allChars Html.stripNewlines]. intros H. apply andb_true_iff in H as [Hc Ht].
  destruct (Ascii.eqb c Js.lf || Ascii.eqb c Js.cr); [discriminate|].
  now rewrite IH.
Qed.

(** A selected row whose text holds a line feed: Enter does not put that
    text into the field. *)
Lemma enter_commit_line_break :
  ~ (nth_error (texts lineBreakSelected) (Z.to_nat (activeIndex lineBreakSelected))
     = Some lfTitle ->
     inputValue (fst (onKeydown "Enter" lineBreakSelected)) = lfTitle).
Proof.
  intros H.
  assert (E : nth_error (texts lineBreakSelected)
                (Z.to_nat (activeIndex lineBreakSelected)) = Some lfTitle)
    by (vm_compute; reflexivity).
  specialize (H E). vm_compute in H. discriminate H.
Qed.

(** C7 - Enter commits the selected row.  In a dropdown showing the rows
    [s_0 .. s_(N-1)] with [N > 0]: when row [i] is selected, Enter assigns
    [s_i] to the text field, which keeps it with its line breaks removed
    (so the field holds [s_i] itself when [s_i] has no line break), removes
    the rows, hides the dropdown, resets the index to [-1], suppresses the
    default action of the key and touches nothing else; when no row is
    selected, Enter leaves the whole state as it is and does not suppress
    the default action. *)
Theorem enter_commit (st : State) :
  items st <> [] ->
  (forall s, (0 <= activeIndex st)%Z ->
     nth_error (texts st) (Z.to_nat (activeIndex st)) = Some s ->
     onKeydown "Enter" st = (clearSuggestions (assignValue s st), true)
     /\ inputValue (fst (onKeydown "Enter" st)) = Html.stripNewlines s
     /\ (allChars (fun c => negb (Ascii.eqb c Js.lf || Ascii.eqb c Js.cr)) s = true ->
         inputValue (fst (onKeydown "Enter" st)) = s)
     /\ items (fst (onKeydown "Enter" st)) = []
     /\ show (fst (onKeydown "Enter" st)) = false
     /\ activeIndex (fst (onKeydown "Enter" st)) = (-1)%Z)
  /\ (activeIndex st = (-1)%Z -> onKeydown "Enter" st = (st, false)).
Proof.
  intros Hne. split.
  - intros s Hi Hs.
    destruct (itemAt_texts _ _ _ Hi Hs) as (item & Hitem & Htext).
    assert (E : onKeydown "Enter" st = (clearSuggestions (assignValue s st), true)).
    { unfold onKeydown. rewrite items_nonempty_length by assumption.
      cbn [String.eqb Ascii.eqb Bool.eqb andb].
      destruct (Z.leb_spec 0 (activeIndex st)) as [_|Hlt]; [|lia].
      rewrite Hitem, orEmpty_id, Htext. reflexivity. }
    rewrite E. cbn [fst].
    split; [reflexivity|]. split; [reflexivity|].
    split; [|repeat split].
    intros Hplain. cbn. now apply stripNewlines_plain.
  - intros Hi. unfold onKeydown. rewrite items_nonempty_length by assumption.
    rewrite Hi. reflexivity.
Qed.

(** Enter on the second of the three sample rows puts "Dune Messiah" into
    the field and empties the dropdown. *)
Lemma enter_commit_witness :
  items duneSecond <> []
  /\ inputValue (fst (onKeydown "Enter" duneSecond)) = "Dune Messiah"
  /\ items (fst (onKeydown "Enter" duneSecond)) = []
  /\ onKeydown "Enter" duneOpen = (duneOpen, false).
Proof.
  assert (H2 : items duneSecond <> []) by (vm_compute; discriminate).
  assert (H1 : items duneOpen <> []) by (vm_compute; discriminate).
  split; [exact H2|].
  destruct (enter_commit duneSecond H2) as [Hsel _].
  destruct (Hsel "Dune Messiah") as (_ & _ & Hv & Hi & _);
    [vm_compute; discriminate | vm_compute; reflexivity |].
  destruct (enter_commit duneOpen H1) as [_ Hno].
  split; [apply Hv; vm_compute; reflexivity|]. split; [exact Hi|].
  apply Hno. vm_compute. reflexivity.
Defined.

(** ** Dismissal *)

(** Clearing an empty dropdown changes nothing. *)
Lemma clearSuggestions_idempotent (st : State) :
  clearSuggestions (clearSuggestions st) = clearSuggestions st.
Proof. reflexivity. Qed.

(** Escape clears the dropdown whatever the selection, and keeps its
    default action. *)
Lemma escape_clears (st : State) :
  items st <> [] -> onKeydown "Escape" st = (clearSuggestions st, false).
Proof.
  intros H. unfold onKeydown. rewrite items_nonempty_length by assumption.
  reflexivity.
Qed.

(** A press on a row commits its text, as Enter does. *)
Lemma mousedown_commit (st : State) (i : nat) (item : Li) :
  nth_error (items st) i = Some item ->
  step st (Mousedown (Some i))
  = clearSuggestions (assignValue (textContent item) st).
Proof. intros H. cbn [step]. unfold onMousedown. now rewrite H, orEmpty_id. Qed.

(** C9 - outside click.  A click whose target is not inside the form
    container removes the rows, hides the dropdown and resets the index to
    [-1], whatever the selection was; the value of the text field, and
    every other part of the state, stays as it was. *)
Theorem outside_click_clears (st : State) :
  items (step st (Click false)) = []
  /\ show (step st (Click false)) = false
  /\ activeIndex (step st (Click false)) = (-1)%Z
  /\ inputValue (step st (Click false)) = inputValue st
  /\ suggestionsUrl (step st (Click false)) = suggestionsUrl st
  /\ scrolled (step st (Click false)) = scrolled st
  /\ debounceTimer (step st (Click false)) = debounceTimer st
  /\ controller (step st (Click false)) = controller st
  /\ timers (step st (Click false)) = timers st
  /\ requests (step st (Click false)) = requests st.
Proof. repeat split. Qed.

(** ** Initialisation *)

Lemma dispatch_without_widget (p : Page) (evs : list Event) :
  widget p = None -> fold_left dispatch evs p = p.
Proof.
  intros H. induction evs as [|e evs IH]; [reflexivity|].
  simpl. unfold dispatch at 2. rewrite H. exact IH.
Qed.

(** C10 - missing-element guard.  When the text field or the list is
    absent from the document, the script installs no listener and creates
    no state, and every later event leaves the page as it is. *)
Theorem main_missing_element (doc : Document) :
  bookInput doc = None \/ suggestionsList doc = false ->
  listeners (main doc) = []
  /\ widget (main doc) = None
  /\ forall evs, fold_left dispatch evs (main doc) = main doc.
Proof.
  intros H.
  assert (E : main doc = {| listeners := []; widget := None |}).
  { unfold main. destruct H as [H|H]; rewrite H.
    - reflexivity.
    - destruct (bookInput doc) as [[v e]|]; reflexivity. }
  rewrite E. repeat split. intros evs. now apply dispatch_without_widget.
Qed.

(** A document that has the text field but not the list. *)
Lemma main_missing_element_witness :
  listeners (main {| bookInput := Some ("du", "/api/suggest");
                     suggestionsList := false |}) = []
  /\ fold_left dispatch [Input "dune"; Keydown "Enter"; Click false]
       (main {| bookInput := Some ("du", "/api/suggest");
                suggestionsList := false |})
     = main {| bookInput := Some ("du", "/api/suggest");
               suggestionsList := false |}.
Proof.
  destruct (main_missing_element
              {| bookInput := Some ("du", "/api/suggest");
                 suggestionsList := false |}) as (Hl & _ & Hd).
  - right. reflexivity.
  - split; [exact Hl | apply Hd].
Defined.

(** With both elements present the four listeners are installed. *)
Lemma main_both_present (value0 endpoint : string) :
  main {| bookInput := Some (value0, endpoint); suggestionsList := true |}
  = {| listeners := [(OnInput, "input"); (OnList, "mousedown");
                     (OnInput, "keydown"); (OnDocument, "click")];
       widget := Some (initial value0 endpoint) |}.
Proof. reflexivity. Qed.

(** ** Reading the books out of the payload *)

Lemma booksOf_object_without_books (fields : list (string * value)) :
  lookupField "books" fields = None ->
  booksOf (VObj fields) = Return (VArr []).
Proof. intros H. unfold booksOf, getProp. rewrite H. reflexivity. Qed.

(** A value that is not [null] has a [books] property to read, present or
    not, and a falsy one counts as absent. *)
Lemma booksOf_falsy (payload books : value) :
  getProp payload "books" = Return books ->
  truthy books = false ->
  booksOf payload = Return (VArr []).
Proof. intros H Hf. unfold booksOf. rewrite H. simpl. now rewrite Hf. Qed.

(** ** What the renderer and the callback can do to the state *)

Lemma rowsFromV_strings (ss : list string) (index : nat) :
  rowsFromV index (map VStr ss) = Return (rowsFrom index ss).
Proof.
  revert index. induction ss as [|s ss IH]; intros index; [reflexivity|].
  simpl. rewrite IH. reflexivity.
Qed.

Lemma rowsFromV_Return (elems : list value) (index : nat) (parts : list string) :
  rowsFromV index elems = Return parts ->
  exists ss, elems = map VStr ss /\ parts = rowsFrom index ss.
Proof.
  revert index parts. induction elems as [|v elems IH]; intros index parts H.
  - exists []. simpl in H. inversion H. split; reflexivity.
  - simpl in H. destruct v; simpl in H; try discriminate.
    destruct (rowsFromV (S index) elems) as [more|] eqn:E; simpl in H;
      [|discriminate].
    destruct (IH _ _ E) as (ss & -> & ->).
    exists (s :: ss). inversion H. split; reflexivity.
Qed.

(** Rendering a non-empty list of strings displays their text contents. *)
Lemma renderSuggestions_strings (ss : list string) (st : State) :
  ss <> [] ->
  renderSuggestions (VArr (map VStr ss)) st
  = Return (displaying (map Html.domText ss) st).
Proof.
  intros Hne. destruct ss as [|s ss]; [congruence|].
  unfold renderSuggestions. cbn [map].
  change (VStr s :: map VStr ss) with (map VStr (s :: ss)).
  rewrite rowsFromV_strings. cbn [bind].
  unfold set_innerHTML. rewrite textContents_rowsFrom. reflexivity.
Qed.

(** The three things [renderSuggestions] can do. *)
Lemma renderSuggestions_cases (books : value) (st : State) :
  renderSuggestions books st = Return (clearSuggestions st)
  \/ (exists ss, ss <> [] /\ renderSuggestions books st = Return (displaying ss st))
  \/ (exists name, renderSuggestions books st = Throw name).
Proof.
  destruct books; try (left; reflexivity).
  destruct elems as [|v elems]; [left; reflexivity|].
  destruct (rowsFromV 0 (v :: elems)) as [parts|name] eqn:E.
  - destruct (rowsFromV_Return _ _ _ E) as (ss & Hss & _).
    right; left. exists (map Html.domText ss). rewrite Hss.
    assert (Hne : ss <> []) by (destruct ss; [discriminate | congruence]).
    split; [destruct ss; [congruence | discriminate]
           | now apply renderSuggestions_strings].
  - right; right. exists name. unfold renderSuggestions. rewrite E. reflexivity.
Qed.

(** The callback leaves the state alone, clears the dropdown, or displays a
    non-empty list of strings. *)
Lemma callbackTail_cases (r : completion value) (st : State) :
  callbackTail r st = st
  \/ callbackTail r st = clearSuggestions st
  \/ exists ss, ss <> [] /\ callbackTail r st = displaying ss st.
Proof.
  unfold callbackTail. destruct r as [books|name]; cbn [bind].
  - destruct (renderSuggestions_cases books st) as [H|[(ss & Hne & H)|(name & H)]];
      rewrite H.
    + right; left; reflexivity.
    + right; right. exists ss. split; [exact Hne | reflexivity].
    + destruct (negb (String.eqb name abortError)); [right; left | left]; reflexivity.
  - destruct (negb (String.eqb name abortError)); [right; left | left]; reflexivity.
Qed.

Lemma callbackTail_abort (st : State) : callbackTail (Throw abortError) st = st.
Proof. reflexivity. Qed.

(** ** Escaping and rendering, end to end *)

Lemma texts_displaying (ss : list string) (st : State) :
  texts (displaying ss st) = ss.
Proof. unfold texts. cbn. rewrite map_map. cbn. apply map_id. Qed.

(** A title with a carriage return does not come back character for
    character: the parser turns the carriage return into a line feed. *)
Lemma textContent_carriage_return :
  ~ (Html.textContents (rowMarkup 0 crTitle) = [crTitle]).
Proof. vm_compute. discriminate. Qed.

(** C2 - escaping round trip.  For every suggestion string [s],
    [escapeHtml s] is [s] with each of the five characters ampersand,
    less-than, greater-than, double quote and apostrophe replaced by its
    entity and every other character kept; none of the characters that
    delimit tags or attribute values is left in it; HTML-unescaping it
    gives [s] back.  The row rendered for [s], parsed back, has as its text
    content [s] with every carriage return (alone or followed by a line
    feed) turned into a line feed and every null character dropped: [s]
    itself, character for character, when [s] has no carriage return and
    no null character.  Rendering a list of strings and reading the text
    of the rows gives those text contents in the same order. *)
Theorem escapeHtml_roundtrip :
  (forall s : string,
     escapeHtml s = escapeSpec s
     /\ allChars (fun c => negb (isMarkupChar c)) (escapeHtml s) = true
     /\ Html.unescapeHtml (escapeHtml s) = s
     /\ (forall index, Html.textContents (rowMarkup index s) = [Html.domText s])
     /\ (allChars (fun c => negb (Ascii.eqb c Js.cr || Ascii.eqb c Js.nul)) s = true ->
         forall index, Html.textContents (rowMarkup index s) = [s]))
  /\ (forall (books : list string) (st : State),
        books <> [] ->
        exists st', renderSuggestions (VArr (map VStr books)) st = Return st'
                    /\ texts st' = map Html.domText books).
Proof.
  assert (Hrow : forall s index,
             Html.textContents (rowMarkup index s) = [Html.domText s]).
  { intros s index.
    rewrite <- (app_nil_s (rowMarkup index s)).
    change (rowMarkup index s ++ EmptyString) with (Js.join (rowsFrom index [s])).
    apply textContents_rowsFrom. }
  split.
  - intros s.
    split; [apply escapeHtml_escapeSpec|].
    split; [apply escapeHtml_safe|].
    split; [apply unescape_escape|].
    split; [apply Hrow|].
    intros Hplain index. rewrite Hrow. now rewrite domText_plain.
  - intros books st Hne. exists (displaying (map Html.domText books) st).
    split; [now apply renderSuggestions_strings | apply texts_displaying].
Qed.

(** The script tag of the specification comes back as text, and the two
    sample titles come back as they went in. *)
Lemma escapeHtml_roundtrip_witness :
  Html.textContents (rowMarkup 0 "<script>alert(1)</script>")
  = ["<script>alert(1)</script>"]
  /\ exists st', renderSuggestions (VArr (map VStr ["Dune"; "Dune Messiah"]))
                   (initial "du" "/api/suggest") = Return st'
                 /\ texts st' = ["Dune"; "Dune Messiah"].
Proof.
  destruct escapeHtml_roundtrip as [Hs Hl].
  split.
  - destruct (Hs "<script>alert(1)</script>") as (_ & _ & _ & _ & H).
    apply H. vm_compute. reflexivity.
  - apply (Hl ["Dune"; "Dune Messiah"]). discriminate.
Defined.

(** ** The invariants hold in every reachable state *)

Lemma timerOwned_ext (a b : State) :
  timers b = timers a -> debounceTimer b = debounceTimer a ->
  timerOwned a -> timerOwned b.
Proof. unfold timerOwned. intros -> ->. tauto. Qed.

Lemma onlyLatestLive_ext (a b : State) :
  requests b = requests a -> controller b = controller a ->
  onlyLatestLive a -> onlyLatestLive b.
Proof. unfold onlyLatestLive, latest. intros -> ->. tauto. Qed.

Lemma indexInRange_ext (a b : State) :
  items b = items a -> activeIndex b = activeIndex a ->
  indexInRange a -> indexInRange b.
Proof. unfold indexInRange. intros -> ->. tauto. Qed.

Lemma shownIffRows_ext (a b : State) :
  items b = items a -> show b = show a ->
  shownIffRows a -> shownIffRows b.
Proof. unfold shownIffRows. intros -> ->. tauto. Qed.

(** The callback touches neither the timers nor the requests. *)
Lemma callbackTail_host (r : completion value) (st : State) :
  timers (callbackTail r st) = timers st
  /\ debounceTimer (callbackTail r st) = debounceTimer st
  /\ requests (callbackTail r st) = requests st
  /\ controller (callbackTail r st) = controller st
  /\ inputValue (callbackTail r st) = inputValue st.
Proof.
  destruct (callbackTail_cases r st) as [E|[E|(ss & _ & E)]]; rewrite E;
    repeat split.
Qed.

Lemma callbackTail_index (r : completion value) (st : State) :
  indexInRange st -> indexInRange (callbackTail r st).
Proof.
  intros H.
  destruct (callbackTail_cases r st) as [E|[E|(ss & Hne & E)]]; rewrite E.
  - exact H.
  - unfold indexInRange. cbn. lia.
  - unfold indexInRange. cbn. rewrite length_map.
    destruct ss; [congruence | simpl; lia].
Qed.

Lemma callbackTail_shown (r : completion value) (st : State) :
  shownIffRows st -> shownIffRows (callbackTail r st).
Proof.
  intros H.
  destruct (callbackTail_cases r st) as [E|[E|(ss & Hne & E)]]; rewrite E.
  - exact H.
  - reflexivity.
  - unfold shownIffRows. cbn. rewrite length_map.
    destruct ss; [congruence | reflexivity].
Qed.

Lemma length_updateAt {A : Type} (n : nat) (f : A -> A) (l : list A) :
  length (updateAt n f l) = length l.
Proof.
  revert n. induction l as [|x l IH]; intros [|n]; simpl; auto.
Qed.

Lemma nth_error_updateAt {A : Type} (n : nat) (f : A -> A) (l : list A) (i : nat) :
  nth_error (updateAt n f l) i
  = if Nat.eqb i n then option_map f (nth_error l i) else nth_error l i.
Proof.
  revert n i. induction l as [|x l IH]; intros n i.
  - destruct n, i; simpl; try reflexivity; destruct (Nat.eqb i n); reflexivity.
  - destruct n, i; simpl; try reflexivity. apply IH.
Qed.

(** Moving a request to another stage keeps the abort flags. *)
Lemma onlyLatestLive_setStage (id : nat) (s : Stage) (st : State) :
  onlyLatestLive st ->
  onlyLatestLive (set_requests (updateAt id (setStage s) (requests st)) st).
Proof.
  intros [Hc Ha]. unfold onlyLatestLive, latest in *. cbn.
  rewrite length_updateAt. split; [exact Hc|].
  intros i r. rewrite nth_error_updateAt.
  destruct (Nat.eqb i id).
  - destruct (nth_error (requests st) i) as [r0|] eqn:E; [|discriminate].
    cbn. intros H. inversion H. cbn. now apply Ha.
  - apply Ha.
Qed.

Lemma Inv_callbackTail (r : completion value) (st : State) :
  Inv st -> Inv (callbackTail r st).
Proof.
  intros [Ht Hr Hi Hs].
  destruct (callbackTail_host r st) as (E1 & E2 & E3 & E4 & _).
  constructor.
  - now apply (timerOwned_ext st).
  - now apply (onlyLatestLive_ext st).
  - now apply callbackTail_index.
  - now apply callbackTail_shown.
Qed.

Lemma Inv_fetchSettles (id : nat) (o : FetchOutcome) (st : State) :
  Inv st -> Inv (fetchSettles id o st).
Proof.
  intros [Ht Hr Hi Hs]. unfold fetchSettles.
  destruct (nth_error (requests st) id) as [r|]; [|now constructor].
  destruct (stage r); try now constructor.
  set (st1 := set_requests (updateAt id (setStage Settled) (requests st)) st).
  assert (I1 : Inv st1).
  { constructor; [exact Ht | now apply onlyLatestLive_setStage | exact Hi | exact Hs]. }
  assert (Hcb : forall res, Inv (callbackTail res st1))
    by (intros res; now apply Inv_callbackTail).
  destruct (aborted r); [apply Hcb|].
  destruct (afterFetch o) as [res|]; [apply Hcb|].
  constructor; [exact Ht | now apply onlyLatestLive_setStage | exact Hi | exact Hs].
Qed.

Lemma Inv_jsonSettles (id : nat) (o : completion value) (st : State) :
  Inv st -> Inv (jsonSettles id o st).
Proof.
  intros [Ht Hr Hi Hs]. unfold jsonSettles.
  destruct (nth_error (requests st) id) as [r|]; [|now constructor].
  destruct (stage r); try now constructor.
  set (st1 := set_requests (updateAt id (setStage Settled) (requests st)) st).
  assert (I1 : Inv st1).
  { constructor; [exact Ht | now apply onlyLatestLive_setStage | exact Hi | exact Hs]. }
  assert (Hcb : forall res, Inv (callbackTail res st1))
    by (intros res; now apply Inv_callbackTail).
  cbv zeta. destruct (aborted r); apply Hcb.
Qed.

Lemma Inv_clearSuggestions (st : State) : Inv st -> Inv (clearSuggestions st).
Proof.
  intros [Ht Hr Hi Hs]. constructor; try assumption.
  - unfold indexInRange. cbn. lia.
  - reflexivity.
Qed.

Lemma Inv_set_inputValue (x : string) (st : State) :
  Inv st -> Inv (set_inputValue x st).
Proof. intros [Ht Hr Hi Hs]. now constructor. Qed.

(** Cancelling the handle held in [debounceTimer] empties the table. *)
Lemma timers_clearTimeout (st : State) :
  timerOwned st -> timers (clearTimeout (debounceTimer st) st) = [].
Proof.
  intros [H|(t & H & Hd)]; unfold clearTimeout.
  - destruct (debounceTimer st); cbn; rewrite H; reflexivity.
  - rewrite Hd. cbn. rewrite H. cbn. now rewrite Nat.eqb_refl.
Qed.

Lemma Inv_onInput (st : State) : Inv st -> Inv (onInput st).
Proof.
  intros I. unfold onInput.
  destruct (String.length (Js.trim (inputValue st)) <? 2)%nat;
    [now apply Inv_clearSuggestions|].
  pose proof (timers_clearTimeout st (inv_timer _ I)) as Hc.
  destruct I as [Ht Hr Hi Hs]. constructor.
  - right. unfold setTimeout. cbn. rewrite Hc. cbn. eexists. split; reflexivity.
  - apply (onlyLatestLive_ext st); [| |exact Hr];
      unfold clearTimeout; destruct (debounceTimer st); reflexivity.
  - apply (indexInRange_ext st); [| |exact Hi];
      unfold clearTimeout; destruct (debounceTimer st); reflexivity.
  - apply (shownIffRows_ext st); [| |exact Hs];
      unfold clearTimeout; destruct (debounceTimer st); reflexivity.
Qed.

Lemma Inv_onMousedown (target : option nat) (st : State) :
  Inv st -> Inv (onMousedown target st).
Proof.
  intros I. unfold onMousedown. destruct target as [i|]; [|exact I].
  destruct (nth_error (items st) i); [|exact I].
  now apply Inv_clearSuggestions, Inv_set_inputValue.
Qed.

Lemma Inv_onClick (inForm : bool) (st : State) : Inv st -> Inv (onClick inForm st).
Proof.
  intros I. unfold onClick. destruct (negb inForm); [|exact I].
  now apply Inv_clearSuggestions.
Qed.

(** Where the arrow keys can take the index. *)
Lemma rem_in_range (x n : Z) :
  (-1 <= x)%Z -> (0 < n)%Z -> (-1 <= Z.rem x n < n)%Z.
Proof.
  intros Hx Hn. destruct (Z.eq_dec x (-1)) as [->|Hne].
  - pose proof (Z.rem_bound_pos 1 n ltac:(lia) Hn).
    pose proof (Z.rem_le 1 n ltac:(lia) Hn).
    change (-1)%Z with (- (1))%Z at 2 3.
    rewrite Z.rem_opp_l by lia. lia.
  - pose proof (Z.rem_bound_pos x n ltac:(lia) Hn). lia.
Qed.

Lemma Inv_arrow (x : Z) (st : State) :
  Inv st -> items st <> [] -> (-1 <= x)%Z ->
  Inv (setActiveSuggestion (items st)
         (set_activeIndex (Z.rem x (Z.of_nat (length (items st)))) st)).
Proof.
  intros [Ht Hr Hi Hs] Hne Hx.
  pose proof (items_nonempty_pos st Hne) as Hpos.
  set (st1 := set_activeIndex _ st).
  assert (E : forall its,
             timers (setActiveSuggestion its st1) = timers st
             /\ debounceTimer (setActiveSuggestion its st1) = debounceTimer st
             /\ requests (setActiveSuggestion its st1) = requests st
             /\ controller (setActiveSuggestion its st1) = controller st).
  { intros its. unfold setActiveSuggestion. cbn.
    destruct (0 <=? _)%Z; [destruct (itemAt _ _)|]; repeat split. }
  destruct (E (items st)) as (E1 & E2 & E3 & E4).
  constructor.
  - now apply (timerOwned_ext st).
  - now apply (onlyLatestLive_ext st).
  - unfold indexInRange.
    rewrite activeIndex_setActiveSuggestion, items_setActiveSuggestion,
      length_toggleActive.
    subst st1. cbn. now apply rem_in_range.
  - unfold shownIffRows.
    rewrite show_setActiveSuggestion, items_setActiveSuggestion,
      length_toggleActive.
    exact Hs.
Qed.

Lemma Inv_onKeydown (key : string) (st : State) :
  Inv st -> Inv (fst (onKeydown key st)).
Proof.
  intros I. pose proof (inv_index _ I) as Hi. unfold indexInRange in Hi.
  unfold onKeydown.
  destruct (length (items st) =? 0)%nat eqn:E0; [exact I|].
  assert (Hne : items st <> []) by (destruct (items st); [discriminate | congruence]).
  destruct (String.eqb key "ArrowDown"); [apply Inv_arrow; [assumption..|lia]|].
  destruct (String.eqb key "ArrowUp").
  { cbn [fst]. apply Inv_arrow; [assumption..|].
    pose proof (items_nonempty_pos st Hne). lia. }
  destruct (String.eqb key "Enter" && (0 <=? activeIndex st)%Z).
  { destruct (itemAt _ _); [|exact I].
    now apply Inv_clearSuggestions, Inv_set_inputValue. }
  destruct (String.eqb key "Escape"); [|exact I].
  now apply Inv_clearSuggestions.
Qed.

Lemma latest_length (st : State) (n : nat) :
  latest st = Some n <-> length (requests st) = S n.
Proof.
  unfold latest. destruct (length (requests st)); split; intros H;
    try discriminate; inversion H; reflexivity.
Qed.

(** Starting a request keeps exactly one signal live: the new one. *)
Lemma onlyLatestLive_fetchSuggestions_start (q : string) (st : State) :
  onlyLatestLive st -> onlyLatestLive (fetchSuggestions_start q st).
Proof.
  intros [Hc Ha]. unfold fetchSuggestions_start.
  destruct (latest st) as [n|] eqn:L; rewrite Hc.
  - apply latest_length in L.
    unfold onlyLatestLive, latest. cbn.
    rewrite length_app, length_updateAt, L. cbn.
    replace (n + 1)%nat with (S n) by lia. split; [reflexivity|].
    intros id r.
    destruct (Nat.lt_ge_cases id (S n)) as [Hlt|Hge].
    + rewrite nth_error_app1 by (rewrite length_updateAt; lia).
      rewrite nth_error_updateAt.
      replace (Nat.eqb id (S n)) with false by (symmetry; apply Nat.eqb_neq; lia).
      destruct (Nat.eqb id n) eqn:En.
      * destruct (nth_error (requests st) id); [|discriminate].
        cbn. intros H. inversion H. reflexivity.
      * intros H. rewrite (Ha _ _ H), En. reflexivity.
    + rewrite nth_error_app2 by (rewrite length_updateAt; lia).
      rewrite length_updateAt, L.
      destruct (id - S n)%nat as [|k] eqn:Ek.
      * cbn. intros H. inversion H. cbn.
        replace id with (S n) by lia. now rewrite Nat.eqb_refl.
      * cbn. destruct k; discriminate.
  - unfold latest in L.
    destruct (requests st) as [|r0 rs] eqn:R; [|discriminate].
    unfold onlyLatestLive, latest. cbn.
    split; [reflexivity|].
    intros [|id] r H; cbn in H; [inversion H; reflexivity|].
    destruct id; discriminate.
Qed.

Lemma Inv_timerFires (id : nat) (st : State) : Inv st -> Inv (timerFires id st).
Proof.
  intros I. unfold timerFires, findTimer.
  destruct (find _ (timers st)) as [t|] eqn:F; [|exact I].
  destruct (due t <=? clock st)%Z; [|exact I].
  destruct I as [Ht Hr Hi Hs].
  set (st0 := set_timers _ st).
  assert (Hemp : timers st0 = []).
  { subst st0. cbn. destruct Ht as [H|(t0 & H & _)]; rewrite H in *.
    - discriminate.
    - cbn in F. cbn. destruct (Nat.eqb (timerId t0) id); [reflexivity|discriminate]. }
  assert (Hframe : timers (fetchSuggestions_start (query t) st0) = timers st0
                   /\ items (fetchSuggestions_start (query t) st0) = items st
                   /\ show (fetchSuggestions_start (query t) st0) = show st
                   /\ activeIndex (fetchSuggestions_start (query t) st0) = activeIndex st).
  { unfold fetchSuggestions_start. destruct (controller st0); repeat split. }
  destruct Hframe as (F1 & F2 & F3 & F4).
  constructor.
  - left. now rewrite F1.
  - apply onlyLatestLive_fetchSuggestions_start.
    now apply (onlyLatestLive_ext st).
  - now apply (indexInRange_ext st).
  - now apply (shownIffRows_ext st).
Qed.

Lemma Inv_initial (value0 endpoint : string) : Inv (initial value0 endpoint).
Proof.
  constructor.
  - left. reflexivity.
  - split; [reflexivity|]. intros [|id] r H; discriminate.
  - unfold indexInRange. cbn. lia.
  - reflexivity.
Qed.

Lemma Inv_step (st : State) (e : Event) : Inv st -> Inv (step st e).
Proof.
  intros I. destruct e; cbn [step].
  - now apply Inv_onInput, Inv_set_inputValue.
  - now apply Inv_onKeydown.
  - now apply Inv_onMousedown.
  - now apply Inv_onClick.
  - destruct (0 <=? ms)%Z; [|exact I]. destruct I. now constructor.
  - now apply Inv_timerFires.
  - now apply Inv_fetchSettles.
  - now apply Inv_jsonSettles.
Qed.

Lemma Inv_run (evs : list Event) (st : State) : Inv st -> Inv (run st evs).
Proof.
  revert st. induction evs as [|e evs IH]; intros st I; [exact I|].
  apply IH, Inv_step, I.
Qed.

Lemma reachable_Inv (st : State) : reachable st -> Inv st.
Proof.
  intros (value0 & endpoint & evs & ->). apply Inv_run, Inv_initial.
Qed.

Lemma reachable_initial (value0 endpoint : string) :
  reachable (initial value0 endpoint).
Proof. exists value0, endpoint, []. reflexivity. Qed.

Lemma reachable_run (st : State) (evs : list Event) :
  reachable st -> reachable (run st evs).
Proof.
  intros (value0 & endpoint & evs0 & ->).
  exists value0, endpoint, (evs0 ++ evs)%list. unfold run. now rewrite fold_left_app.
Qed.

Lemma reachable_step (st : State) (e : Event) :
  reachable st -> reachable (step st e).
Proof. intros H. apply (reachable_run st [e] H). Qed.

(** ** Request coordinator: stale responses *)

(** In a reachable state the signal of every superseded request is
    aborted. *)
Lemma superseded_aborted (st : State) (a : nat) (r : Request) :
  Inv st -> latest st <> Some a ->
  nth_error (requests st) a = Some r -> aborted r = true.
Proof.
  intros I Hl H. destruct (inv_requests _ I) as [_ Ha].
  rewrite (Ha _ _ H). destruct (latest st) as [n|]; [|reflexivity].
  destruct (Nat.eqb_spec a n) as [->|_]; [congruence | reflexivity].
Qed.

Lemma latest_live (st : State) (b : nat) (r : Request) :
  Inv st -> latest st = Some b ->
  nth_error (requests st) b = Some r -> aborted r = false.
Proof.
  intros I Hl H. destruct (inv_requests _ I) as [_ Ha].
  rewrite (Ha _ _ H), Hl, Nat.eqb_refl. reflexivity.
Qed.

(** Whatever a superseded request settles to, the widget shows what it
    showed before. *)
Lemma stale_fetch_ignored (st : State) (a : nat) (o : FetchOutcome) :
  Inv st -> latest st <> Some a -> ui (fetchSettles a o st) = ui st.
Proof.
  intros I Hl. unfold fetchSettles.
  destruct (nth_error (requests st) a) as [r|] eqn:E; [|reflexivity].
  rewrite (superseded_aborted st a r I Hl E).
  destruct (stage r); reflexivity.
Qed.

Lemma stale_json_ignored (st : State) (a : nat) (o : completion value) :
  Inv st -> latest st <> Some a -> ui (jsonSettles a o st) = ui st.
Proof.
  intros I Hl. unfold jsonSettles.
  destruct (nth_error (requests st) a) as [r|] eqn:E; [|reflexivity].
  rewrite (superseded_aborted st a r I Hl E).
  destruct (stage r); reflexivity.
Qed.

(** The callback does not look at the table of requests. *)
Lemma callbackTail_set_requests (res : completion value) (rs : list Request)
    (st : State) :
  callbackTail res (set_requests rs st) = set_requests rs (callbackTail res st).
Proof.
  unfold callbackTail. destruct res as [books|name]; cbn [bind].
  - destruct books; try reflexivity.
    destruct elems as [|v elems]; [reflexivity|].
    unfold renderSuggestions.
    destruct (rowsFromV 0 (v :: elems)) as [parts|name]; cbn [bind];
      [reflexivity|].
    destruct (negb (String.eqb name abortError)); reflexivity.
  - destruct (negb (String.eqb name abortError)); reflexivity.
Qed.

(** When the body of the latest request arrives, the callback runs on its
    books. *)
Lemma latest_json_applied (st : State) (b : nat) (r : Request)
    (body : completion value) :
  Inv st -> latest st = Some b ->
  nth_error (requests st) b = Some r -> stage r = AwaitJson ->
  jsonSettles b body st
  = set_requests (updateAt b (setStage Settled) (requests st))
      (callbackTail (afterJson body) st).
Proof.
  intros I Hl E Hs. unfold jsonSettles.
  rewrite E, Hs, (latest_live st b r I Hl E). cbv zeta.
  apply callbackTail_set_requests.
Qed.

Lemma callbackTail_books (ss : list string) (st : State) :
  ss <> [] ->
  callbackTail (afterJson (Return (VObj [("books", VArr (map VStr ss))]))) st
  = displaying (map Html.domText ss) st.
Proof.
  intros Hne. unfold callbackTail, afterJson, booksOf.
  cbn [bind getProp lookupField String.eqb Ascii.eqb Bool.eqb truthy].
  now rewrite renderSuggestions_strings.
Qed.

Lemma ui_texts (a b : State) : ui a = ui b -> texts a = texts b.
Proof. unfold ui, texts. intros H. injection H as _ H _ _. now rewrite H. Qed.

Lemma latest_fetchSettles (id : nat) (o : FetchOutcome) (st : State) :
  latest (fetchSettles id o st) = latest st.
Proof.
  unfold fetchSettles.
  destruct (nth_error (requests st) id) as [r|]; [|reflexivity].
  destruct (stage r); try reflexivity.
  destruct (aborted r); [|destruct (afterFetch o)]; unfold latest;
    match goal with
    | |- context [requests (callbackTail ?res ?s)] =>
        destruct (callbackTail_host res s) as (_ & _ & -> & _)
    | _ => idtac
    end; cbn; now rewrite length_updateAt.
Qed.

Lemma latest_jsonSettles (id : nat) (o : completion value) (st : State) :
  latest (jsonSettles id o st) = latest st.
Proof.
  unfold jsonSettles.
  destruct (nth_error (requests st) id) as [r|]; [|reflexivity].
  destruct (stage r); try reflexivity. cbv zeta.
  destruct (aborted r); unfold latest;
    match goal with
    | |- context [requests (callbackTail ?res ?s)] =>
        destruct (callbackTail_host res s) as (_ & _ & -> & _)
    end; cbn; now rewrite length_updateAt.
Qed.

(** C1 - no stale overwrite.  In every reachable state, a response (or a
    failure) that arrives for a request other than the most recently issued
    one is not applied: the field, the rows, the visibility and the index
    stay as they are.  What the most recently issued request answers is
    applied when its body arrives (its books are the rows on display), and
    it stays on display when the superseded request settles afterwards. *)
Theorem no_stale_overwrite (st : State) :
  reachable st ->
  (forall a, latest st <> Some a ->
     (forall o, ui (step st (FetchSettles a o)) = ui st)
     /\ (forall o, ui (step st (JsonSettles a o)) = ui st))
  /\ (forall b r bodyB,
        latest st = Some b -> nth_error (requests st) b = Some r ->
        stage r = AwaitJson ->
        ui (step st (JsonSettles b bodyB)) = ui (callbackTail (afterJson bodyB) st)
        /\ (forall ss, ss <> [] ->
              bodyB = Return (VObj [("books", VArr (map VStr ss))]) ->
              texts (step st (JsonSettles b bodyB)) = map Html.domText ss)
        /\ forall a oa ja, a <> b ->
             ui (run st [JsonSettles b bodyB; FetchSettles a oa; JsonSettles a ja])
             = ui (step st (JsonSettles b bodyB))).
Proof.
  intros R. pose proof (reachable_Inv st R) as I. split.
  - intros a Hl. split; intros o; cbn [step];
      [now apply stale_fetch_ignored | now apply stale_json_ignored].
  - intros b r bodyB Hl E Hs.
    assert (U : ui (step st (JsonSettles b bodyB))
                = ui (callbackTail (afterJson bodyB) st)).
    { cbn [step]. now rewrite (latest_json_applied st b r bodyB I Hl E Hs). }
    split; [exact U|]. split.
    + intros ss Hne ->. rewrite (ui_texts _ _ U), callbackTail_books by assumption.
      apply texts_displaying.
    + intros a oa ja Hab. cbn [run fold_left].
      set (s1 := step st (JsonSettles b bodyB)).
      assert (I1 : Inv s1) by (apply Inv_step, I).
      assert (L1 : latest s1 <> Some a).
      { subst s1. cbn [step]. rewrite latest_jsonSettles, Hl. congruence. }
      set (s2 := step s1 (FetchSettles a oa)).
      assert (U2 : ui s2 = ui s1)
        by (subst s2; cbn [step]; now apply stale_fetch_ignored).
      assert (I2 : Inv s2) by (apply Inv_step, I1).
      assert (L2 : latest s2 <> Some a).
      { subst s2. cbn [step]. now rewrite latest_fetchSettles. }
      assert (U3 : ui (step s2 (JsonSettles a ja)) = ui s2)
        by (cbn [step]; now apply stale_json_ignored).
      now rewrite U3, U2.
Qed.

(** The answer to "du" arrives after the answer to "dun": the rows stay
    those of "dun". *)
Lemma no_stale_overwrite_witness :
  reachable secondAwaitsBody
  /\ latest secondAwaitsBody = Some 1
  /\ texts (run secondAwaitsBody
              [JsonSettles 1 (Return (VObj [("books", VArr (map VStr ["Dune Messiah"]))]));
               FetchSettles 0 (Resolved true);
               JsonSettles 0 (Return dunePayload)])
     = ["Dune Messiah"].
Proof.
  assert (R : reachable secondAwaitsBody).
  { unfold secondAwaitsBody, twoInFlight.
    apply reachable_run, reachable_run, reachable_initial. }
  assert (L : latest secondAwaitsBody = Some 1) by (vm_compute; reflexivity).
  assert (E : nth_error (requests secondAwaitsBody) 1
              = Some {| url := requestUrl "/api/suggest" "dun";
                        aborted := false; stage := AwaitJson |})
    by (vm_compute; reflexivity).
  split; [exact R|]. split; [exact L|].
  destruct (no_stale_overwrite secondAwaitsBody R) as [_ H].
  destruct (H 1 _ (Return (VObj [("books", VArr (map VStr ["Dune Messiah"]))]))
              L E eq_refl) as (_ & Ht & Ha).
  rewrite (ui_texts _ _ (Ha 0 (Resolved true) (Return dunePayload)
                           ltac:(discriminate))).
  rewrite (Ht ["Dune Messiah"] ltac:(discriminate) eq_refl).
  vm_compute. reflexivity.
Defined.

(** ** Input observer: the short-query guard *)

(** [trim] strips the no-break space as it strips the space. *)
Example trim_nbsp :
  Js.trim (String Js.nbsp (String "d" (String " " EmptyString))) = "d".
Proof. reflexivity. Qed.

(** What the guard does at the event itself: the dropdown is emptied, and
    neither the timers nor the requests are touched. *)
Lemma short_query_handler (st : State) (text : string) :
  (String.length (Js.trim text) < 2)%nat ->
  step st (Input text) = clearSuggestions (set_inputValue text st)
  /\ items (step st (Input text)) = []
  /\ activeIndex (step st (Input text)) = (-1)%Z
  /\ sent (step st (Input text)) = sent st
  /\ timers (step st (Input text)) = timers st
  /\ controller (step st (Input text)) = controller st.
Proof.
  intros H.
  assert (E : step st (Input text) = clearSuggestions (set_inputValue text st)).
  { cbn [step]. unfold onInput. cbn [inputValue set_inputValue].
    apply Nat.ltb_lt in H. now rewrite H. }
  rewrite E. repeat split.
Qed.

(** C4 - short-query guard.  "du" is typed and, 50 ms later, shortened to
    "d".  The handler empties the dropdown and sends nothing, but the timer
    scheduled for "du" stays in the table: 130 ms later it fires, the
    request for "du" is sent, and its answer fills the dropdown while the
    field holds the one-character query. *)
Theorem short_query_stale_timer :
  (String.length (Js.trim (inputValue shortAfterLong)) < 2)%nat
  /\ items shortAfterLong = []
  /\ sent shortAfterLong = []
  /\ map query (timers shortAfterLong) = ["du"]
  /\ sent (run shortAfterLong [Elapse 130; TimerFires 1])
     = [requestUrl "/api/suggest" "du"]
  /\ inputValue (run shortAfterLong
                   [Elapse 130; TimerFires 1; FetchSettles 0 (Resolved true);
                    JsonSettles 0 (Return dunePayload)]) = "d"
  /\ texts (run shortAfterLong
              [Elapse 130; TimerFires 1; FetchSettles 0 (Resolved true);
               JsonSettles 0 (Return dunePayload)])
     = ["Dune"; "Dune Messiah"; "Foundation"]
  /\ show (run shortAfterLong
             [Elapse 130; TimerFires 1; FetchSettles 0 (Resolved true);
              JsonSettles 0 (Return dunePayload)]) = true.
Proof. vm_compute. repeat split. lia. Qed.

(** ** Input observer: debouncing *)

Lemma clearTimeout_frame (h : option nat) (st : State) :
  requests (clearTimeout h st) = requests st
  /\ controller (clearTimeout h st) = controller st
  /\ suggestionsUrl (clearTimeout h st) = suggestionsUrl st
  /\ clock (clearTimeout h st) = clock st
  /\ nextTimer (clearTimeout h st) = nextTimer st.
Proof. destruct h; repeat split. Qed.

Lemma setTimeout_frame (q : string) (delay : Z) (st : State) :
  timers (setTimeout q delay st)
  = (timers st ++ [{| timerId := nextTimer st; due := (clock st + delay)%Z;
                      query := q |}])%list
  /\ debounceTimer (setTimeout q delay st) = Some (nextTimer st)
  /\ requests (setTimeout q delay st) = requests st
  /\ suggestionsUrl (setTimeout q delay st) = suggestionsUrl st
  /\ clock (setTimeout q delay st) = clock st.
Proof. repeat split. Qed.

(** An edit of two characters or more replaces whatever was scheduled by
    one timer for the new query, and sends nothing. *)
Lemma input_long (st : State) (text : string) :
  timerOwned st ->
  (2 <= String.length (Js.trim text))%nat ->
  justScheduled (Js.trim text) (step st (Input text))
  /\ requests (step st (Input text)) = requests st
  /\ suggestionsUrl (step st (Input text)) = suggestionsUrl st.
Proof.
  intros Ht Hlen. cbn [step]. unfold onInput. cbn [inputValue set_inputValue].
  replace (String.length (Js.trim text) <? 2)%nat with false
    by (symmetry; apply Nat.ltb_ge; exact Hlen).
  set (st' := set_inputValue text st).
  assert (Ht' : timerOwned st') by (now apply (timerOwned_ext st)).
  pose proof (timers_clearTimeout st' Ht') as Hc.
  destruct (clearTimeout_frame (debounceTimer st') st') as (F1 & F2 & F3 & F4 & F5).
  destruct (setTimeout_frame (Js.trim text) 180 (clearTimeout (debounceTimer st') st'))
    as (S1 & S2 & S3 & S4 & S5).
  split; [|split].
  - exists (nextTimer st). unfold justScheduled.
    rewrite S1, S2, S5, Hc, F4, F5. split; reflexivity.
  - rewrite S3. exact F1.
  - rewrite S4. exact F3.
Qed.

(** Less than 180 ms after the timer was scheduled it is not due. *)
Lemma wait_quiet (st : State) (q : string) (ms : Z) :
  justScheduled q st -> (0 <= ms < 180)%Z ->
  wait ms st = set_clock (clock st + ms)%Z st.
Proof.
  intros (id & Ht & _) Hms. unfold wait. cbn [step].
  destruct (Z.leb_spec 0 ms) as [_|]; [|lia].
  unfold fireDue. cbn [timers set_clock]. rewrite Ht. cbn [fold_left timerId].
  unfold timerFires, findTimer. cbn [timers set_clock]. rewrite Ht.
  cbn [find timerId]. rewrite Nat.eqb_refl. cbn [due].
  change (clock (set_clock (clock st + ms) st)) with (clock st + ms)%Z.
  destruct (Z.leb_spec (clock st + 180) (clock st + ms)) as [|_]; [lia|reflexivity].
Qed.

(** After 180 ms or more it fires, and its callback starts the request. *)
Lemma wait_fire (st : State) (q : string) (T : Z) :
  justScheduled q st -> (180 <= T)%Z ->
  wait T st
  = fetchSuggestions_start q (set_timers [] (set_clock (clock st + T)%Z st)).
Proof.
  intros (id & Ht & _) HT. unfold wait. cbn [step].
  destruct (Z.leb_spec 0 T) as [_|]; [|lia].
  unfold fireDue. cbn [timers set_clock]. rewrite Ht. cbn [fold_left timerId].
  unfold timerFires, findTimer. cbn [timers set_clock]. rewrite Ht.
  cbn [find timerId filter]. rewrite Nat.eqb_refl. cbn [due query negb].
  change (clock (set_clock (clock st + T) st)) with (clock st + T)%Z.
  destruct (Z.leb_spec (clock st + 180) (clock st + T)) as [_|]; [reflexivity|lia].
Qed.

Lemma map_url_updateAt (n : nat) (f : Request -> Request) (rs : list Request) :
  (forall r, url (f r) = url r) ->
  map url (updateAt n f rs) = map url rs.
Proof.
  intros Hf. revert n. induction rs as [|r rs IH]; intros [|n]; simpl;
    try reflexivity; now rewrite ?Hf, ?IH.
Qed.

(** Starting a request adds exactly one target to those sent. *)
Lemma sent_fetchSuggestions_start (q : string) (st : State) :
  sent (fetchSuggestions_start q st)
  = (sent st ++ [requestUrl (suggestionsUrl st) q])%list.
Proof.
  unfold sent, fetchSuggestions_start.
  destruct (controller st) as [id|]; cbn; rewrite map_app; cbn;
    [|reflexivity].
  rewrite map_url_updateAt by reflexivity. reflexivity.
Qed.

Lemma timers_fetchSuggestions_start (q : string) (st : State) :
  timers (fetchSuggestions_start q st) = timers st.
Proof. unfold fetchSuggestions_start. destruct (controller st); reflexivity. Qed.

Lemma last_cons {A : Type} (x d : A) (l : list A) : last (x :: l) d = last l x.
Proof.
  revert x d. induction l as [|y l IH]; intros x d; [reflexivity|].
  change (last (x :: y :: l) d) with (last (y :: l) d).
  now rewrite (IH y d), (IH y x).
Qed.

(** Through a burst the only scheduled timer is the one of the latest
    edit, and nothing is sent. *)
Lemma typeBurst_scheduled (rest : list (Z * string)) (st : State) (text : string) :
  justScheduled (Js.trim text) st ->
  Forall (fun p => (0 <= fst p < 180)%Z
                   /\ (2 <= String.length (Js.trim (snd p)))%nat) rest ->
  justScheduled (Js.trim (lastText text rest)) (typeBurst rest st)
  /\ requests (typeBurst rest st) = requests st
  /\ suggestionsUrl (typeBurst rest st) = suggestionsUrl st.
Proof.
  revert st text. induction rest as [|[ms text'] rest IH]; intros st text J HF.
  - repeat split. exact J.
  - inversion HF as [|p l [Hms Hlen] HF' E]; subst. cbn [fst snd] in *.
    cbn [typeBurst].
    rewrite (wait_quiet st _ ms J Hms).
    set (s1 := set_clock (clock st + ms)%Z st).
    assert (Ht : timerOwned s1).
    { destruct J as (id & Ht & Hd). right. eexists. split; [exact Ht|exact Hd]. }
    destruct (input_long s1 text' Ht Hlen) as (J' & R' & U').
    destruct (IH _ _ J' HF') as (J'' & R'' & U'').
    unfold lastText in *. cbn [map snd]. rewrite last_cons.
    split; [exact J''|]. split; [now rewrite R'', R' | now rewrite U'', U'].
Qed.

(** C5 - debounce coalescing.  From any reachable state, a burst of edits,
    each with a trimmed length of two or more and each less than 180 ms
    after the previous one, sends no request while it lasts (there is no
    leading-edge call, and each edit cancels the timer of the one before);
    once 180 ms have passed after the last edit exactly one request has
    been sent, for the last query of the burst, and no timer is left. *)
Theorem debounce_coalescing (st : State) (first : string)
    (rest : list (Z * string)) (T : Z) :
  reachable st ->
  (2 <= String.length (Js.trim first))%nat ->
  Forall (fun p => (0 <= fst p < 180)%Z
                   /\ (2 <= String.length (Js.trim (snd p)))%nat) rest ->
  (180 <= T)%Z ->
  sent (step st (Input first)) = sent st
  /\ sent (typeBurst rest (step st (Input first))) = sent st
  /\ sent (wait T (typeBurst rest (step st (Input first))))
     = (sent st ++ [requestUrl (suggestionsUrl st) (Js.trim (lastText first rest))])%list
  /\ timers (wait T (typeBurst rest (step st (Input first)))) = [].
Proof.
  intros R Hfirst Hrest HT.
  pose proof (inv_timer _ (reachable_Inv st R)) as Ht.
  destruct (input_long st first Ht Hfirst) as (J & Rq & U).
  destruct (typeBurst_scheduled rest _ first J Hrest) as (J' & Rq' & U').
  split; [unfold sent; now rewrite Rq|].
  split; [unfold sent; now rewrite Rq', Rq|].
  rewrite (wait_fire _ _ T J' HT). split.
  - rewrite sent_fetchSuggestions_start. unfold sent.
    cbn [requests suggestionsUrl set_timers set_clock].
    now rewrite Rq', Rq, U', U.
  - now rewrite timers_fetchSuggestions_start.
Qed.

(** "du", "dun", "dune" typed 100 ms and 179 ms apart: one request, for
    "dune". *)
Lemma debounce_coalescing_witness :
  reachable (initial "" "/api/suggest")
  /\ sent (typeBurst [(100%Z, "dun"); (179%Z, "dune")]
             (step (initial "" "/api/suggest") (Input "du"))) = []
  /\ sent (wait 180 (typeBurst [(100%Z, "dun"); (179%Z, "dune")]
                       (step (initial "" "/api/suggest") (Input "du"))))
     = [requestUrl "/api/suggest" "dune"].
Proof.
  assert (R : reachable (initial "" "/api/suggest")) by apply reachable_initial.
  assert (H1 : (2 <= String.length (Js.trim "du"))%nat) by (vm_compute; lia).
  assert (H2 : Forall (fun p => (0 <= fst p < 180)%Z
                              /\ (2 <= String.length (Js.trim (snd p)))%nat)
                 [(100%Z, "dun"); (179%Z, "dune")]).
  { repeat constructor; vm_compute; congruence. }
  assert (H3 : (180 <= 180)%Z) by lia.
  destruct (debounce_coalescing (initial "" "/api/suggest") "du"
              [(100%Z, "dun"); (179%Z, "dune")] 180 R H1 H2 H3)
    as (_ & Hb & Hw & _).
  split; [exact R|]. split; [exact Hb | exact Hw].
Defined.

(** ** Failure absorption in fetchSuggestions *)

(** A body that is JSON [null] has no [books] field, and the call does not
    return the empty list for it: the property read throws. *)
Lemma fetchSuggestions_null_body :
  ~ (hasField "books" VNull = false ->
     fetchSuggestions_result (Resolved true) (Return VNull) = Return (VArr [])).
Proof. intros H. specialize (H eq_refl). discriminate H. Qed.

(** C6 - failure absorption.  For a response whose status is not a
    success, [fetchSuggestions] returns the empty list whatever the body.
    For a successful response whose body is not [null] and carries no
    [books] field, it returns the empty list.  For a body that is [null]
    the property read throws a TypeError, which the caller catches by
    clearing the suggestions. *)
Theorem fetchSuggestions_absorbs :
  (forall body, fetchSuggestions_result (Resolved false) body = Return (VArr []))
  /\ (forall payload,
        nullish payload = false -> hasField "books" payload = false ->
        fetchSuggestions_result (Resolved true) (Return payload) = Return (VArr []))
  /\ (forall payload,
        nullish payload = true ->
        fetchSuggestions_result (Resolved true) (Return payload) = Throw "TypeError"
        /\ forall st,
             callbackTail (fetchSuggestions_result (Resolved true) (Return payload)) st
             = clearSuggestions st).
Proof.
  split; [reflexivity|]. split.
  - intros payload Hn Hf. unfold fetchSuggestions_result, afterJson. cbn [afterFetch bind].
    destruct payload; try discriminate; try reflexivity.
    apply booksOf_object_without_books.
    unfold hasField in Hf. destruct (lookupField "books" fields); [discriminate|reflexivity].
  - intros payload Hn. destruct payload; try discriminate; split; reflexivity.
Qed.

(** An object with another field only, and the [null] body. *)
Lemma fetchSuggestions_absorbs_witness :
  fetchSuggestions_result (Resolved true) (Return (VObj [("count", VNum 0)]))
  = Return (VArr [])
  /\ fetchSuggestions_result (Resolved true) (Return VNull) = Throw "TypeError".
Proof.
  destruct fetchSuggestions_absorbs as (_ & Hobj & Hnull).
  split.
  - apply Hobj; reflexivity.
  - apply (Hnull VNull). reflexivity.
Defined.

(** ** Suppression of the default action *)

(** Enter on an open dropdown with no row selected is not intercepted. *)
Lemma preventDefault_enter_noSelection :
  ~ (snd (onKeydown "Enter" duneOpen) = true <-> isOpen duneOpen = true).
Proof.
  intros [_ H].
  assert (E : snd (onKeydown "Enter" duneOpen) = false) by (vm_compute; reflexivity).
  rewrite E in H. discriminate H. vm_compute. reflexivity.
Qed.

Lemma isOpen_rows (st : State) :
  shownIffRows st -> isOpen st = negb (length (items st) =? 0)%nat.
Proof. unfold isOpen, shownIffRows. intros ->. apply andb_diag. Qed.

(** C8 - suppression of the default action.  In every reachable state,
    ArrowUp and ArrowDown call preventDefault exactly when the dropdown is
    open with at least one row; Enter calls it exactly when, in addition, a
    row is selected; and with an empty dropdown no key is intercepted and
    the state is left as it is. *)
Theorem preventDefault_iff (st : State) :
  reachable st ->
  (forall key, key = "ArrowUp" \/ key = "ArrowDown" ->
     (snd (onKeydown key st) = true <-> isOpen st = true))
  /\ (snd (onKeydown "Enter" st) = true
      <-> isOpen st = true /\ (0 <= activeIndex st)%Z)
  /\ (items st = [] -> forall key, onKeydown key st = (st, false)).
Proof.
  intros R. pose proof (inv_shown _ (reachable_Inv st R)) as Hs.
  rewrite (isOpen_rows st Hs).
  split; [|split].
  - intros key [-> | ->]; unfold onKeydown;
      destruct (length (items st) =? 0)%nat; cbn; split; congruence.
  - unfold onKeydown. destruct (length (items st) =? 0)%nat; cbn.
    + split; [discriminate | intros [H _]; discriminate H].
    + destruct (Z.leb_spec 0 (activeIndex st)) as [Hge|Hlt].
      * destruct (itemAt (items st) (activeIndex st)); cbn; split; auto.
      * cbn. split; [discriminate | intros [_ H]; lia].
  - intros He key. unfold onKeydown. rewrite He. reflexivity.
Qed.

(** The open sample dropdown: ArrowDown is intercepted; Enter is not while
    nothing is selected, and is once the second row is. *)
Lemma preventDefault_iff_witness :
  reachable duneOpen
  /\ snd (onKeydown "ArrowDown" duneOpen) = true
  /\ snd (onKeydown "Enter" duneSecond) = true.
Proof.
  assert (R1 : reachable duneOpen)
    by (unfold duneOpen; apply reachable_run, reachable_initial).
  assert (R2 : reachable duneSecond)
    by (unfold duneSecond; apply reachable_run, R1).
  split; [exact R1|]. split.
  - destruct (preventDefault_iff duneOpen R1) as (H & _ & _).
    apply (H "ArrowDown"); [right; reflexivity | vm_compute; reflexivity].
  - destruct (preventDefault_iff duneSecond R2) as (_ & H & _).
    apply H. split; [vm_compute; reflexivity | vm_compute; discriminate].
Defined.

(* ================================================================== *)
(** * Further properties of the code *)

(** ** escapeHtml *)

Lemma length_app_s (a b : string) :
  String.length (a ++ b) = (String.length a + String.length b)%nat.
Proof. induction a as [|x a IH]; simpl; [reflexivity | now rewrite IH]. Qed.

Lemma escapeSpec_app (a b : string) :
  escapeSpec (a ++ b) = escapeSpec a ++ escapeSpec b.
Proof.
  induction a as [|c a IH]; simpl; [reflexivity|].
  now rewrite IH, app_assoc_s.
Qed.

(** X13 - escaping distributes over concatenation: escaping a string piece
    by piece and joining the pieces gives the escaped whole. *)
Theorem escapeHtml_app (a b : string) :
  escapeHtml (a ++ b) = escapeHtml a ++ escapeHtml b.
Proof. rewrite !escapeHtml_escapeSpec. apply escapeSpec_app. Qed.

(** X14 - escaping loses nothing: two strings with the same escaped form
    are the same string. *)
Theorem escapeHtml_injective (a b : string) :
  escapeHtml a = escapeHtml b -> a = b.
Proof.
  intros H. rewrite <- (unescape_escape a), <- (unescape_escape b).
  now rewrite H.
Qed.

Lemma escapeHtml_injective_witness :
  escapeHtml "Dune" = escapeHtml "Dune" /\ "Dune" = "Dune".
Proof.
  split; [reflexivity|].
  apply (escapeHtml_injective "Dune" "Dune"). reflexivity.
Defined.

Lemma entityOf_plain (c : ascii) :
  needsEscape c = false -> entityOf c = String c EmptyString.
Proof. each_char c; intros H; first [reflexivity | discriminate H]. Qed.

Lemma entityOf_escaped (c : ascii) :
  needsEscape c = true ->
  exists rest, entityOf c = String "&" rest /\ (3 <= String.length rest)%nat.
Proof.
  each_char c; intros H; try discriminate H;
    eexists; (split; [reflexivity | simpl; lia]).
Qed.

Lemma length_escapeHtml (s : string) :
  (String.length s <= String.length (escapeHtml s))%nat.
Proof.
  induction s as [|c t IH]; [simpl; lia|].
  rewrite escapeHtml_cons, length_app_s. simpl.
  destruct (needsEscape c) eqn:E.
  - destruct (entityOf_escaped c E) as (rest & -> & Hr). simpl. lia.
  - rewrite (entityOf_plain c E). simpl. lia.
Qed.

(** X15 - the strings escaping leaves alone are exactly those without any
    of the five characters; on every other string the escaped form differs
    (so escaping twice is not escaping once). *)
Theorem escapeHtml_identity_iff (s : string) :
  escapeHtml s = s <-> allChars (fun c => negb (needsEscape c)) s = true.
Proof.
  induction s as [|c t IH]; [split; reflexivity|].
  rewrite escapeHtml_cons. cbn [allChars].
  destruct (needsEscape c) eqn:E.
  - split; [|discriminate].
    destruct (entityOf_escaped c E) as (rest & -> & Hr).
    cbn [String.append]. intros H. injection H as _ H.
    apply (f_equal String.length) in H. rewrite length_app_s in H.
    pose proof (length_escapeHtml t). lia.
  - rewrite (entityOf_plain c E). cbn [String.append negb andb].
    rewrite <- IH. split; intros H; [now injection H | now rewrite H].
Qed.

Lemma escapeHtml_identity_iff_witness :
  escapeHtml "Dune Messiah" = "Dune Messiah"
  /\ escapeHtml (escapeHtml "Tom & Jerry") <> escapeHtml "Tom & Jerry".
Proof.
  split.
  - apply (proj2 (escapeHtml_identity_iff "Dune Messiah")). reflexivity.
  - intros H. apply (proj1 (escapeHtml_identity_iff (escapeHtml "Tom & Jerry"))) in H.
    vm_compute in H. discriminate H.
Defined.

(** ** What holds in every reachable state *)

(** X1 - the selection index never leaves the rows: in every reachable
    state it is -1 or the position of a row on display, it is -1 when
    there are no rows, and whenever it is not negative the row it points
    to exists (the property read of the Enter branch cannot throw). *)
Theorem activeIndex_in_range (st : State) :
  reachable st ->
  (-1 <= activeIndex st < Z.of_nat (length (items st)))%Z
  /\ (items st = [] -> activeIndex st = (-1)%Z)
  /\ ((0 <= activeIndex st)%Z ->
      exists item, itemAt (items st) (activeIndex st) = Some item).
Proof.
  intros R. pose proof (inv_index _ (reachable_Inv st R)) as H.
  unfold indexInRange in H. split; [exact H|]. split.
  - intros E. rewrite E in H. simpl in H. lia.
  - intros Hge. unfold itemAt.
    destruct (Z.ltb_spec (activeIndex st) 0) as [|_]; [lia|].
    destruct (nth_error (items st) (Z.to_nat (activeIndex st))) as [item|] eqn:E;
      [now exists item|].
    apply nth_error_None in E. lia.
Qed.

Lemma activeIndex_in_range_witness :
  reachable duneSecond
  /\ (-1 <= activeIndex duneSecond < Z.of_nat (length (items duneSecond)))%Z.
Proof.
  assert (R : reachable duneSecond).
  { unfold duneSecond, duneOpen. apply reachable_run, reachable_run, reachable_initial. }
  split; [exact R|]. apply (activeIndex_in_range duneSecond R).
Defined.

(** X2 - the dropdown is shown exactly when it has rows: in every reachable
    state the list carries the class "show" if and only if it holds at
    least one row. *)
Theorem show_iff_rows (st : State) :
  reachable st -> (show st = true <-> items st <> []).
Proof.
  intros R. pose proof (inv_shown _ (reachable_Inv st R)) as H.
  unfold shownIffRows in H. rewrite H.
  destruct (items st); simpl; split; congruence.
Qed.

Lemma show_iff_rows_witness :
  reachable duneOpen /\ (show duneOpen = true <-> items duneOpen <> []).
Proof.
  assert (R : reachable duneOpen)
    by (unfold duneOpen; apply reachable_run, reachable_initial).
  split; [exact R | apply (show_iff_rows duneOpen R)].
Defined.

(** X3 - one debounce timer at most: in every reachable state at most one
    timer is scheduled, and [debounceTimer] holds its handle, so the next
    long edit cancels it. *)
Theorem one_pending_timer (st : State) :
  reachable st ->
  (length (timers st) <= 1)%nat
  /\ forall t, In t (timers st) -> debounceTimer st = Some (timerId t).
Proof.
  intros R. destruct (inv_timer _ (reachable_Inv st R)) as [H|(t0 & H & Hd)];
    rewrite H; simpl.
  - split; [lia | contradiction].
  - split; [lia|]. intros t [<-|[]]. exact Hd.
Qed.

Lemma one_pending_timer_witness :
  reachable shortAfterLong /\ (length (timers shortAfterLong) <= 1)%nat.
Proof.
  assert (R : reachable shortAfterLong)
    by (unfold shortAfterLong; apply reachable_run, reachable_initial).
  split; [exact R | apply (one_pending_timer shortAfterLong R)].
Defined.

(** X4 - one live request at most: in every reachable state [controller]
    belongs to the request issued last, and the abort signal of a request
    is clear if and only if it is that last request. *)
Theorem only_latest_request_live (st : State) :
  reachable st ->
  controller st = latest st
  /\ forall id r, nth_error (requests st) id = Some r ->
       (aborted r = false <-> latest st = Some id).
Proof.
  intros R. destruct (inv_requests _ (reachable_Inv st R)) as [Hc Ha].
  split; [exact Hc|]. intros id r H. rewrite (Ha _ _ H).
  destruct (latest st) as [n|]; simpl.
  - destruct (Nat.eqb_spec id n) as [->|Hne]; simpl; split; congruence.
  - split; discriminate.
Qed.

Lemma only_latest_request_live_witness :
  reachable twoInFlight
  /\ controller twoInFlight = Some 1
  /\ map aborted (requests twoInFlight) = [true; false].
Proof.
  assert (R : reachable twoInFlight)
    by (unfold twoInFlight; apply reachable_run, reachable_initial).
  split; [exact R|]. split.
  - rewrite (proj1 (only_latest_request_live twoInFlight R)). vm_compute. reflexivity.
  - vm_compute. reflexivity.
Defined.

(** ** Where requests go *)

Lemma wellTargeted_ext (a b : State) :
  timers b = timers a -> requests b = requests a ->
  suggestionsUrl b = suggestionsUrl a ->
  wellTargeted a -> wellTargeted b.
Proof. unfold wellTargeted. intros -> -> ->. tauto. Qed.

Lemma callbackTail_url (r : completion value) (st : State) :
  suggestionsUrl (callbackTail r st) = suggestionsUrl st.
Proof.
  destruct (callbackTail_cases r st) as [E|[E|(ss & _ & E)]]; rewrite E; reflexivity.
Qed.

Lemma wellTargeted_callbackTail (r : completion value) (st : State) :
  wellTargeted st -> wellTargeted (callbackTail r st).
Proof.
  destruct (callbackTail_host r st) as (E1 & _ & E3 & _).
  apply wellTargeted_ext; [exact E1 | exact E3 | apply callbackTail_url].
Qed.

Lemma Forall_updateAt {A : Type} (P : A -> Prop) (n : nat) (f : A -> A) (l : list A) :
  (forall x, P x -> P (f x)) -> Forall P l -> Forall P (updateAt n f l).
Proof.
  intros Hf H. revert n. induction H as [|x l Hx Hl IH]; intros [|n]; simpl;
    constructor; auto.
Qed.

Lemma Forall_filter_keep {A : Type} (P : A -> Prop) (f : A -> bool) (l : list A) :
  Forall P l -> Forall P (filter f l).
Proof.
  intros H. apply Forall_forall. intros x Hx. apply filter_In in Hx as [Hx _].
  revert x Hx. now apply Forall_forall.
Qed.

Lemma wellTargeted_updateAt (id : nat) (f : Request -> Request) (st : State) :
  (forall r, url (f r) = url r) ->
  wellTargeted st -> wellTargeted (set_requests (updateAt id f (requests st)) st).
Proof.
  intros Hf [Ht Hr]. split; [exact Ht|]. cbn [requests set_requests suggestionsUrl].
  apply Forall_updateAt; [|exact Hr].
  intros r (q & Hq & Hl). exists q. now rewrite Hf.
Qed.

Lemma wellTargeted_fetchSuggestions_start (q : string) (st : State) :
  longQuery q = true -> wellTargeted st ->
  wellTargeted (fetchSuggestions_start q st).
Proof.
  intros Hq W. unfold fetchSuggestions_start.
  assert (W1 : wellTargeted (match controller st with
                             | Some id => abort id st
                             | None => st
                             end)).
  { destruct (controller st) as [id|]; [|exact W].
    unfold abort. now apply wellTargeted_updateAt. }
  set (st1 := match controller st with Some id => abort id st | None => st end) in *.
  destruct W1 as [Ht Hr]. split; [exact Ht|].
  cbn [requests set_requests set_controller suggestionsUrl].
  apply Forall_app. split; [exact Hr|].
  constructor; [|constructor]. exists q. split; [reflexivity | exact Hq].
Qed.

Lemma find_In {A : Type} (f : A -> bool) (l : list A) (x : A) :
  find f l = Some x -> In x l.
Proof. intros H. now apply find_some in H. Qed.

Lemma wellTargeted_step (st : State) (e : Event) :
  wellTargeted st -> wellTargeted (step st e).
Proof.
  intros W. destruct e; cbn [step].
  - (* Input *)
    unfold onInput. cbn [inputValue set_inputValue].
    destruct (String.length (Js.trim text) <? 2)%nat eqn:E; [exact W|].
    destruct W as [Ht Hr].
    set (st' := set_inputValue text st).
    destruct (clearTimeout_frame (debounceTimer st') st') as (F1 & _ & F3 & _).
    destruct (setTimeout_frame (Js.trim text) 180 (clearTimeout (debounceTimer st') st'))
      as (S1 & _ & S3 & S4 & _).
    split.
    + rewrite S1. apply Forall_app. split.
      * unfold clearTimeout. destruct (debounceTimer st'); [|exact Ht].
        cbn [timers set_timers]. now apply Forall_filter_keep.
      * constructor; [|constructor]. cbn [query]. unfold longQuery.
        apply Nat.leb_le. apply Nat.ltb_ge in E. exact E.
    + rewrite S3, S4, F1, F3. exact Hr.
  - (* Keydown *)
    unfold onKeydown.
    assert (A : forall x, wellTargeted
                            (setActiveSuggestion (items st) (set_activeIndex x st))).
    { intros x. unfold setActiveSuggestion. cbn.
      destruct (0 <=? x)%Z; [destruct (itemAt _ _)|]; exact W. }
    destruct (length (items st) =? 0)%nat; [exact W|].
    destruct (String.eqb key "ArrowDown"); [apply A|].
    destruct (String.eqb key "ArrowUp"); [apply A|].
    destruct (String.eqb key "Enter" && (0 <=? activeIndex st)%Z).
    { destruct (itemAt _ _); exact W. }
    destruct (String.eqb key "Escape"); exact W.
  - (* Mousedown *)
    unfold onMousedown. destruct target as [i|]; [|exact W].
    destruct (nth_error (items st) i); exact W.
  - (* Click *)
    unfold onClick. destruct (negb inForm); exact W.
  - (* Elapse *)
    destruct (0 <=? ms)%Z; exact W.
  - (* TimerFires *)
    unfold timerFires, findTimer.
    destruct (find _ (timers st)) as [t|] eqn:F; [|exact W].
    destruct (due t <=? clock st)%Z; [|exact W].
    apply wellTargeted_fetchSuggestions_start.
    + destruct W as [Ht _]. apply find_In in F.
      revert t F. now apply Forall_forall.
    + destruct W as [Ht Hr]. split; [|exact Hr].
      cbn [timers set_timers]. now apply Forall_filter_keep.
  - (* FetchSettles *)
    unfold fetchSettles.
    destruct (nth_error (requests st) id) as [r|]; [|exact W].
    destruct (stage r); try exact W.
    destruct (aborted r); [|destruct (afterFetch o)];
      try apply wellTargeted_callbackTail; now apply wellTargeted_updateAt.
  - (* JsonSettles *)
    unfold jsonSettles.
    destruct (nth_error (requests st) id) as [r|]; [|exact W].
    destruct (stage r); try exact W. cbv zeta.
    destruct (aborted r); apply wellTargeted_callbackTail;
      now apply wellTargeted_updateAt.
Qed.

Lemma wellTargeted_run (evs : list Event) (st : State) :
  wellTargeted st -> wellTargeted (run st evs).
Proof.
  revert st. induction evs as [|e evs IH]; intros st W; [exact W|].
  apply IH, wellTargeted_step, W.
Qed.

(** X5 - no request for a short query: in every reachable state, every
    request that was ever sent went to the configured endpoint with
    exactly the parameters [q] and [limit=10], [q] being two code units
    long or more; the same holds for the query of the pending timer. *)
Theorem requests_well_targeted (st : State) :
  reachable st ->
  (forall u, In u (sent st) ->
     exists q, u = {| base := suggestionsUrl st;
                      searchParams := [("q", q); ("limit", "10")] |}
               /\ (2 <= String.length q)%nat)
  /\ (forall t, In t (timers st) -> (2 <= String.length (query t))%nat).
Proof.
  intros (value0 & endpoint & evs & ->).
  assert (W : wellTargeted (run (initial value0 endpoint) evs)).
  { apply wellTargeted_run. split; constructor. }
  destruct W as [Ht Hr]. split.
  - intros u Hu. unfold sent in Hu. apply in_map_iff in Hu as (r & <- & Hin).
    destruct (proj1 (Forall_forall _ _) Hr r Hin) as (q & Hq & Hl).
    exists q. split; [exact Hq|]. now apply Nat.leb_le.
  - intros t Hin. apply Nat.leb_le.
    exact (proj1 (Forall_forall _ _) Ht t Hin).
Qed.

Lemma requests_well_targeted_witness :
  reachable twoInFlight
  /\ exists q, {| base := "/api/suggest";
                  searchParams := [("q", "dun"); ("limit", "10")] |}
               = {| base := suggestionsUrl twoInFlight;
                    searchParams := [("q", q); ("limit", "10")] |}
               /\ (2 <= String.length q)%nat.
Proof.
  assert (R : reachable twoInFlight)
    by (unfold twoInFlight; apply reachable_run, reachable_initial).
  split; [exact R|].
  apply (proj1 (requests_well_targeted twoInFlight R)).
  vm_compute. right. left. reflexivity.
Defined.

(** ** Keyboard navigation *)

Lemma texts_toggleActive (ai : Z) (its : list Li) (index : nat) :
  map textContent (toggleActive ai index its) = map textContent its.
Proof.
  revert index. induction its as [|it its IH]; intros index; simpl;
    [reflexivity | now rewrite IH].
Qed.

Lemma nth_error_toggleActive (ai : Z) (its : list Li) (index i : nat) (item : Li) :
  nth_error (toggleActive ai index its) i = Some item ->
  active item = (Z.of_nat (index + i) =? ai)%Z.
Proof.
  revert index i. induction its as [|it its IH]; intros index i H.
  - destruct i; discriminate.
  - destruct i as [|i]; simpl in H.
    + inversion H. simpl. now rewrite Nat.add_0_r.
    + apply IH in H. rewrite H. f_equal. lia.
Qed.

Lemma activeCount_toggleActive (ai : Z) (its : list Li) (index : nat) :
  activeCount (toggleActive ai index its)
  = if ((Z.of_nat index <=? ai) && (ai <? Z.of_nat (index + length its)))%Z
    then 1%nat else 0%nat.
Proof.
  unfold activeCount. revert index.
  induction its as [|it its IH]; intros index.
  - simpl. rewrite Nat.add_0_r.
    destruct (Z.leb_spec (Z.of_nat index) ai), (Z.ltb_spec ai (Z.of_nat index));
      simpl; try reflexivity; lia.
  - cbn [toggleActive filter active].
    destruct (Z.eqb_spec (Z.of_nat index) ai) as [E|E]; cbn [length];
      rewrite (IH (S index));
      destruct (Z.leb_spec (Z.of_nat (S index)) ai),
               (Z.ltb_spec ai (Z.of_nat (S index + length its))),
               (Z.leb_spec (Z.of_nat index) ai),
               (Z.ltb_spec ai (Z.of_nat (index + S (length its))));
      simpl; try reflexivity; lia.
Qed.

(** Where ArrowUp takes the index, from any index in range. *)
Lemma arrowUp_rem_range (ai n : Z) :
  (-1 <= ai)%Z -> (0 < n)%Z -> (0 <= Z.rem (ai - 1 + n) n < n)%Z.
Proof.
  intros Ha Hn. destruct (Z.eq_dec (ai - 1 + n) (-1)) as [E|E].
  - assert (n = 1%Z) by lia. subst n. rewrite E.
    change (Z.rem (-1) 1) with 0%Z. lia.
  - apply Z.rem_bound_pos; lia.
Qed.

(** The state after an arrow key, given the index it computes. *)
Lemma setActiveSuggestion_selected (st : State) (x : Z) :
  (0 <= x < Z.of_nat (length (items st)))%Z ->
  let st' := setActiveSuggestion (items st) (set_activeIndex x st) in
  activeIndex st' = x
  /\ texts st' = texts st
  /\ length (items st') = length (items st)
  /\ activeCount (items st') = 1%nat
  /\ (forall i item, nth_error (items st') i = Some item ->
        active item = (Z.of_nat i =? x)%Z)
  /\ scrolled st' = (scrolled st ++ [Z.to_nat x])%list.
Proof.
  intros Hx st'. subst st'.
  rewrite activeIndex_setActiveSuggestion, items_setActiveSuggestion.
  cbn [activeIndex set_activeIndex].
  unfold texts. rewrite items_setActiveSuggestion. cbn [activeIndex set_activeIndex].
  rewrite texts_toggleActive, length_toggleActive, activeCount_toggleActive.
  split; [reflexivity|]. split; [reflexivity|]. split; [reflexivity|]. split.
  { destruct (Z.leb_spec (Z.of_nat 0) x), (Z.ltb_spec x (Z.of_nat (0 + length (items st))));
      simpl; try reflexivity; lia. }
  split.
  { intros i item H. now apply nth_error_toggleActive in H. }
  unfold setActiveSuggestion. cbn.
  destruct (Z.leb_spec 0 x) as [_|]; [|lia].
  unfold itemAt. destruct (Z.ltb_spec x 0) as [|_]; [lia|].
  destruct (nth_error (toggleActive x 0 (items st)) (Z.to_nat x)) eqn:E; [reflexivity|].
  apply nth_error_None in E. rewrite length_toggleActive in E. lia.
Qed.

(** X6 - an arrow key always selects exactly one row: in a reachable state
    with rows, after ArrowDown or ArrowUp the index is the position of a
    row, that row and no other carries the class "active", the texts of the
    rows are unchanged, and that row is the one asked to scroll into
    view. *)
Theorem arrow_marks_one_row (st : State) (key : string) :
  reachable st -> items st <> [] ->
  key = "ArrowDown" \/ key = "ArrowUp" ->
  (0 <= activeIndex (fst (onKeydown key st)) < Z.of_nat (length (items st)))%Z
  /\ texts (fst (onKeydown key st)) = texts st
  /\ activeCount (items (fst (onKeydown key st))) = 1%nat
  /\ (forall i item,
        nth_error (items (fst (onKeydown key st))) i = Some item ->
        active item = (Z.of_nat i =? activeIndex (fst (onKeydown key st)))%Z)
  /\ scrolled (fst (onKeydown key st))
     = (scrolled st ++ [Z.to_nat (activeIndex (fst (onKeydown key st)))])%list.
Proof.
  intros R Hne Hkey.
  pose proof (inv_index _ (reachable_Inv st R)) as Hi. unfold indexInRange in Hi.
  pose proof (items_nonempty_pos st Hne) as Hpos.
  assert (Hx : exists x, (0 <= x < Z.of_nat (length (items st)))%Z
                         /\ fst (onKeydown key st)
                            = setActiveSuggestion (items st) (set_activeIndex x st)).
  { destruct Hkey as [-> | ->].
    - rewrite onKeydown_ArrowDown by assumption. eexists. split; [|reflexivity].
      apply Z.rem_bound_pos; lia.
    - rewrite onKeydown_ArrowUp by assumption. eexists. split; [|reflexivity].
      apply arrowUp_rem_range; lia. }
  destruct Hx as (x & Hx & ->).
  destruct (setActiveSuggestion_selected st x Hx) as (E1 & E2 & E3 & E4 & E5 & E6).
  rewrite E1. repeat split; try assumption; lia.
Qed.

Lemma arrow_marks_one_row_witness :
  reachable duneOpen /\ items duneOpen <> []
  /\ activeCount (items (fst (onKeydown "ArrowUp" duneOpen))) = 1%nat.
Proof.
  assert (R : reachable duneOpen)
    by (unfold duneOpen; apply reachable_run, reachable_initial).
  assert (H : items duneOpen <> []) by (vm_compute; discriminate).
  split; [exact R|]. split; [exact H|].
  apply (arrow_marks_one_row duneOpen "ArrowUp" R H). right. reflexivity.
Defined.

Lemma arrowDown_step (st : State) :
  items st <> [] ->
  (-1 <= activeIndex st < Z.of_nat (length (items st)))%Z ->
  activeIndex (step st (Keydown "ArrowDown"))
  = ((activeIndex st + 1) mod Z.of_nat (length (items st)))%Z
  /\ texts (step st (Keydown "ArrowDown")) = texts st
  /\ length (items (step st (Keydown "ArrowDown"))) = length (items st).
Proof.
  intros Hne Hi. pose proof (items_nonempty_pos st Hne) as Hpos.
  cbn [step]. rewrite onKeydown_ArrowDown by assumption. cbn [fst].
  destruct (setActiveSuggestion_selected st
              (Z.rem (activeIndex st + 1) (Z.of_nat (length (items st)))))
    as (E1 & E2 & E3 & _).
  { apply Z.rem_bound_pos; lia. }
  rewrite E1, E2, E3. split; [|split; reflexivity].
  apply Z.rem_mod_nonneg; lia.
Qed.

Lemma arrowUp_step (st : State) :
  items st <> [] ->
  (0 <= activeIndex st < Z.of_nat (length (items st)))%Z ->
  activeIndex (step st (Keydown "ArrowUp"))
  = ((activeIndex st - 1 + Z.of_nat (length (items st)))
       mod Z.of_nat (length (items st)))%Z
  /\ texts (step st (Keydown "ArrowUp")) = texts st
  /\ length (items (step st (Keydown "ArrowUp"))) = length (items st).
Proof.
  intros Hne Hi. pose proof (items_nonempty_pos st Hne) as Hpos.
  cbn [step]. rewrite onKeydown_ArrowUp by assumption. cbn [fst].
  destruct (setActiveSuggestion_selected st
              (Z.rem (activeIndex st - 1 + Z.of_nat (length (items st)))
                     (Z.of_nat (length (items st)))))
    as (E1 & E2 & E3 & _).
  { apply arrowUp_rem_range; lia. }
  rewrite E1, E2, E3. split; [|split; reflexivity].
  apply Z.rem_mod_nonneg; lia.
Qed.

Lemma length_nonempty {A : Type} (l l' : list A) :
  length l' = length l -> l <> [] -> l' <> [].
Proof. destruct l, l'; simpl; congruence. Qed.

(** ArrowDown pressed [k+1] times. *)
Lemma arrowDown_run (k : nat) (st : State) :
  items st <> [] ->
  (-1 <= activeIndex st < Z.of_nat (length (items st)))%Z ->
  activeIndex (run st (repeat (Keydown "ArrowDown") (S k)))
  = ((activeIndex st + 1 + Z.of_nat k) mod Z.of_nat (length (items st)))%Z
  /\ texts (run st (repeat (Keydown "ArrowDown") (S k))) = texts st
  /\ length (items (run st (repeat (Keydown "ArrowDown") (S k)))) = length (items st).
Proof.
  revert st. induction k as [|k IH]; intros st Hne Hi.
  - cbn [repeat run fold_left]. rewrite Z.add_0_r. now apply arrowDown_step.
  - change (run st (repeat (Keydown "ArrowDown") (S (S k))))
      with (run (step st (Keydown "ArrowDown")) (repeat (Keydown "ArrowDown") (S k))).
    destruct (arrowDown_step st Hne Hi) as (E1 & E2 & E3).
    pose proof (items_nonempty_pos st Hne) as Hpos.
    destruct (IH (step st (Keydown "ArrowDown"))) as (F1 & F2 & F3).
    + exact (length_nonempty _ _ E3 Hne).
    + rewrite E1, E3.
      pose proof (Z.mod_pos_bound (activeIndex st + 1) _ Hpos). lia.
    + rewrite F1, F2, F3, E1, E2, E3. split; [|split; reflexivity].
      rewrite <- Z.add_assoc, Zplus_mod_idemp_l. f_equal. lia.
Qed.

(** X7 - repeated ArrowDown walks the rows in order and wraps: in a
    reachable state with [N] rows and index [i], pressing ArrowDown [k+1]
    times leaves the index at [(i + 1 + k) mod N] and the rows' texts as
    they were; from no selection that is row [k mod N], and [N] presses
    from a selected row come back to it. *)
Theorem arrowDown_repeat (st : State) (k : nat) :
  reachable st -> items st <> [] ->
  activeIndex (run st (repeat (Keydown "ArrowDown") (S k)))
  = ((activeIndex st + 1 + Z.of_nat k) mod Z.of_nat (length (items st)))%Z
  /\ texts (run st (repeat (Keydown "ArrowDown") (S k))) = texts st
  /\ ((0 <= activeIndex st)%Z ->
      activeIndex (run st (repeat (Keydown "ArrowDown") (length (items st))))
      = activeIndex st).
Proof.
  intros R Hne.
  pose proof (inv_index _ (reachable_Inv st R)) as Hi. unfold indexInRange in Hi.
  destruct (arrowDown_run k st Hne Hi) as (E1 & E2 & _).
  split; [exact E1|]. split; [exact E2|].
  intros Hge. destruct (length (items st)) as [|n] eqn:EN.
  - destruct (items st); [congruence | discriminate].
  - destruct (arrowDown_run n st Hne) as (F1 & _); [lia|].
    rewrite F1, EN.
    replace (activeIndex st + 1 + Z.of_nat n)%Z
      with (activeIndex st + 1 * Z.of_nat (S n))%Z by lia.
    rewrite Z_mod_plus_full. apply Z.mod_small. lia.
Qed.

Lemma arrowDown_repeat_witness :
  reachable duneOpen /\ items duneOpen <> []
  /\ activeIndex (run duneOpen (repeat (Keydown "ArrowDown") 5)) = 1%Z.
Proof.
  assert (R : reachable duneOpen)
    by (unfold duneOpen; apply reachable_run, reachable_initial).
  assert (H : items duneOpen <> []) by (vm_compute; discriminate).
  split; [exact R|]. split; [exact H|].
  rewrite (proj1 (arrowDown_repeat duneOpen 4 R H)). vm_compute. reflexivity.
Defined.

(** X8 - the two arrow keys undo each other on a selected row: in a
    reachable state with a row selected, ArrowDown followed by ArrowUp,
    and ArrowUp followed by ArrowDown, leave the index where it was. *)
Theorem arrows_inverse (st : State) :
  reachable st -> (0 <= activeIndex st)%Z ->
  activeIndex (run st [Keydown "ArrowDown"; Keydown "ArrowUp"]) = activeIndex st
  /\ activeIndex (run st [Keydown "ArrowUp"; Keydown "ArrowDown"]) = activeIndex st.
Proof.
  intros R Hge.
  pose proof (inv_index _ (reachable_Inv st R)) as Hi. unfold indexInRange in Hi.
  assert (Hne : items st <> []).
  { intros E. rewrite E in Hi. simpl in Hi. lia. }
  pose proof (items_nonempty_pos st Hne) as Hpos.
  set (N := Z.of_nat (length (items st))) in *.
  cbn [run fold_left]. split.
  - destruct (arrowDown_step st Hne) as (E1 & _ & E3); [lia|].
    destruct (arrowUp_step (step st (Keydown "ArrowDown"))) as (F1 & _).
    + exact (length_nonempty _ _ E3 Hne).
    + rewrite E1, E3. apply Z.mod_pos_bound. exact Hpos.
    + rewrite F1, E1, E3. fold N.
      destruct (Z.eq_dec (activeIndex st + 1) N) as [E|E].
      * rewrite E, Z_mod_same_full. rewrite Z.mod_small; lia.
      * rewrite (Z.mod_small (activeIndex st + 1) N) by lia.
        replace (activeIndex st + 1 - 1 + N)%Z with (activeIndex st + 1 * N)%Z by lia.
        rewrite Z_mod_plus_full. apply Z.mod_small. lia.
  - destruct (arrowUp_step st Hne) as (E1 & _ & E3); [lia|].
    destruct (arrowDown_step (step st (Keydown "ArrowUp"))) as (F1 & _).
    + exact (length_nonempty _ _ E3 Hne).
    + rewrite E1, E3. fold N.
      pose proof (Z.mod_pos_bound (activeIndex st - 1 + N) N Hpos). lia.
    + rewrite F1, E1, E3. fold N.
      rewrite Zplus_mod_idemp_l.
      replace (activeIndex st - 1 + N + 1)%Z with (activeIndex st + 1 * N)%Z by lia.
      rewrite Z_mod_plus_full. apply Z.mod_small. lia.
Qed.

Lemma arrows_inverse_witness :
  reachable duneSecond /\ (0 <= activeIndex duneSecond)%Z
  /\ activeIndex (run duneSecond [Keydown "ArrowDown"; Keydown "ArrowUp"])
     = activeIndex duneSecond.
Proof.
  assert (R : reachable duneSecond).
  { unfold duneSecond, duneOpen. apply reachable_run, reachable_run, reachable_initial. }
  assert (H : (0 <= activeIndex duneSecond)%Z) by (vm_compute; discriminate).
  split; [exact R|]. split; [exact H|].
  exact (proj1 (arrows_inverse duneSecond R H)).
Defined.

(** ** Rendering, then choosing *)

Lemma onKeydown_Enter_selected (st : State) (s : string) :
  items st <> [] -> (0 <= activeIndex st)%Z ->
  nth_error (texts st) (Z.to_nat (activeIndex st)) = Some s ->
  step st (Keydown "Enter") = clearSuggestions (assignValue s st).
Proof.
  intros Hne Hi Hs.
  destruct (itemAt_texts _ _ _ Hi Hs) as (item & Hitem & Htext).
  cbn [step]. unfold onKeydown. rewrite items_nonempty_length by assumption.
  cbn [String.eqb Ascii.eqb Bool.eqb andb].
  destruct (Z.leb_spec 0 (activeIndex st)) as [_|Hlt]; [|lia].
  rewrite Hitem, orEmpty_id, Htext. reflexivity.
Qed.

Lemma run_app (st : State) (a b : list Event) :
  run st (a ++ b)%list = run (run st a) b.
Proof. unfold run. apply fold_left_app. Qed.

(** What reaches the field has neither line break nor null character
    when the string had none. *)
Lemma stripNewlines_domText_plain (s : string) :
  allChars (fun c => negb (Ascii.eqb c Js.lf || Ascii.eqb c Js.cr
                           || Ascii.eqb c Js.nul)) s = true ->
  Html.stripNewlines (Html.domText s) = s.
Proof.
  intros H.
  assert (H1 : allChars (fun c => negb (Ascii.eqb c Js.cr || Ascii.eqb c Js.nul)) s
               = true).
  { revert H. apply allChars_weaken. intros c.
    destruct (Ascii.eqb c Js.lf), (Ascii.eqb c Js.cr), (Ascii.eqb c Js.nul);
      simpl; congruence. }
  assert (H2 : allChars (fun c => negb (Ascii.eqb c Js.lf || Ascii.eqb c Js.cr)) s
               = true).
  { revert H. apply allChars_weaken. intros c.
    destruct (Ascii.eqb c Js.lf), (Ascii.eqb c Js.cr), (Ascii.eqb c Js.nul);
      simpl; congruence. }
  rewrite (domText_plain s H1). now apply stripNewlines_plain.
Qed.

(** X9 - what is chosen is what was rendered: after a list of strings is
    rendered, pressing the mouse on row [i], or pressing ArrowDown [i+1]
    times and then Enter, empties the dropdown and puts into the text
    field the text content of row [i] with its line breaks removed; that
    is the [i]-th string of the list itself, whatever markup characters it
    holds, when the string has no line feed, carriage return or null
    character. *)
Theorem render_then_commit (st : State) (ss : list string) (i : nat) (s : string) :
  nth_error ss i = Some s ->
  exists st',
    renderSuggestions (VArr (map VStr ss)) st = Return st'
    /\ inputValue (step st' (Mousedown (Some i)))
       = Html.stripNewlines (Html.domText s)
    /\ items (step st' (Mousedown (Some i))) = []
    /\ inputValue (run st' (repeat (Keydown "ArrowDown") (S i) ++ [Keydown "Enter"])%list)
       = Html.stripNewlines (Html.domText s)
    /\ items (run st' (repeat (Keydown "ArrowDown") (S i) ++ [Keydown "Enter"])%list)
       = []
    /\ (allChars (fun c => negb (Ascii.eqb c Js.lf || Ascii.eqb c Js.cr
                                || Ascii.eqb c Js.nul)) s = true ->
        inputValue (step st' (Mousedown (Some i))) = s
        /\ inputValue (run st' (repeat (Keydown "ArrowDown") (S i)
                                 ++ [Keydown "Enter"])%list) = s).
Proof.
  intros Hs.
  assert (Hne : ss <> []) by (intros ->; destruct i; discriminate).
  assert (Hlt : (i < length ss)%nat) by (apply nth_error_Some; congruence).
  set (ts := map Html.domText ss).
  assert (Hts : nth_error ts i = Some (Html.domText s))
    by (subst ts; now rewrite nth_error_map, Hs).
  exists (displaying ts st).
  split; [now apply renderSuggestions_strings|].
  assert (Hitems : items (displaying ts st)
                   = map (fun t => {| textContent := t; active := false |}) ts)
    by reflexivity.
  assert (Hlen : length ts = length ss) by (subst ts; apply length_map).
  assert (Hrows : items (displaying ts st) <> []).
  { rewrite Hitems. destruct ts; [simpl in Hlen; lia | discriminate]. }
  assert (Hmouse : step (displaying ts st) (Mousedown (Some i))
                   = clearSuggestions (assignValue (Html.domText s) (displaying ts st))).
  { cbn [step]. unfold onMousedown. rewrite Hitems, nth_error_map, Hts.
    cbn [option_map textContent]. now rewrite orEmpty_id. }
  destruct (arrowDown_run i (displaying ts st) Hrows) as (E1 & E2 & E3).
  { rewrite Hitems, length_map. cbn. lia. }
  set (st2 := run (displaying ts st) (repeat (Keydown "ArrowDown") (S i))) in *.
  assert (Hidx : activeIndex st2 = Z.of_nat i).
  { rewrite E1, Hitems, length_map. cbn [activeIndex displaying set_activeIndex].
    replace (-1 + 1 + Z.of_nat i)%Z with (Z.of_nat i) by lia.
    apply Z.mod_small. lia. }
  assert (Henter : run st2 [Keydown "Enter"]
                   = clearSuggestions (assignValue (Html.domText s) st2)).
  { cbn [run fold_left]. apply onKeydown_Enter_selected.
    - exact (length_nonempty _ _ E3 Hrows).
    - lia.
    - rewrite E2, Hidx, Nat2Z.id, texts_displaying. exact Hts. }
  rewrite run_app. fold st2. rewrite Hmouse, Henter.
  split; [reflexivity|]. split; [reflexivity|].
  split; [reflexivity|]. split; [reflexivity|].
  intros Hplain. cbn. rewrite stripNewlines_domText_plain by assumption.
  split; reflexivity.
Qed.

Lemma render_then_commit_witness :
  exists st',
    renderSuggestions (VArr (map VStr ["Dune"; "Tom & <Jerry>"])) (initial "to" "/api/suggest")
    = Return st'
    /\ inputValue (step st' (Mousedown (Some 1))) = "Tom & <Jerry>".
Proof.
  destruct (render_then_commit (initial "to" "/api/suggest")
              ["Dune"; "Tom & <Jerry>"] 1 "Tom & <Jerry>" eq_refl)
    as (st' & H1 & _ & _ & _ & _ & H2).
  exists st'. split; [exact H1|].
  apply H2. vm_compute. reflexivity.
Defined.

(** ** What a response does to the dropdown *)

Lemma rowsFromV_Throw (elems : list value) (index : nat) (name : string) :
  rowsFromV index elems = Throw name -> name = "TypeError".
Proof.
  revert index. induction elems as [|v elems IH]; intros index H; [discriminate|].
  simpl in H. destruct v; simpl in H; try (now inversion H).
  destruct (rowsFromV (S index) elems) eqn:E; simpl in H; [discriminate|].
  inversion H. subst. now apply (IH (S index)).
Qed.

(** What [renderSuggestions] does, told by its argument. *)
Lemma renderSuggestions_by_argument (books : value) (st : State) :
  (exists ss, ss <> [] /\ books = VArr (map VStr ss)
              /\ renderSuggestions books st
                 = Return (displaying (map Html.domText ss) st))
  \/ ((forall ss, ss <> [] -> books <> VArr (map VStr ss))
      /\ (renderSuggestions books st = Return (clearSuggestions st)
          \/ renderSuggestions books st = Throw "TypeError")).
Proof.
  destruct books; try (right; split; [intros ss _; discriminate | left; reflexivity]).
  destruct elems as [|v elems].
  { right. split; [|left; reflexivity].
    intros [|s ss] Hne; [congruence | discriminate]. }
  destruct (rowsFromV 0 (v :: elems)) as [parts|name] eqn:E.
  - destruct (rowsFromV_Return _ _ _ E) as (ss & Hss & _).
    left. exists ss.
    assert (Hne : ss <> []) by (destruct ss; [discriminate | congruence]).
    split; [exact Hne|]. split; [now rewrite Hss|].
    rewrite Hss. now apply renderSuggestions_strings.
  - right. split.
    + intros ss Hne Heq. injection Heq as Heq. rewrite Heq, rowsFromV_strings in E.
      discriminate.
    + right. rewrite (rowsFromV_Throw _ _ _ E) in E.
      unfold renderSuggestions. now rewrite E.
Qed.

(** X10 - rows appear only for a non-empty array of strings: when the body
    of a successful response is parsed, the callback displays one row per
    string, holding its text content, if the body's [books] is the
    non-empty array [ss] of strings, and
    in every other case (a body that is null, no [books], a falsy or
    non-array [books], an empty array, an array with an element that is
    not a string) it clears the dropdown; in both cases field, timers and
    requests are untouched. *)
Theorem callback_displays_or_clears (payload : value) (st : State) :
  (forall ss, ss <> [] ->
     getProp payload "books" = Return (VArr (map VStr ss)) ->
     callbackTail (afterJson (Return payload)) st
     = displaying (map Html.domText ss) st)
  /\ ((forall ss, ss <> [] ->
         getProp payload "books" <> Return (VArr (map VStr ss))) ->
      callbackTail (afterJson (Return payload)) st = clearSuggestions st).
Proof.
  unfold afterJson, booksOf. cbn [bind]. split.
  - intros ss Hne H. rewrite H. cbn [bind truthy].
    unfold callbackTail. cbn [bind]. now rewrite renderSuggestions_strings.
  - intros H. destruct (getProp payload "books") as [books|name] eqn:G.
    + cbn [bind]. unfold callbackTail. cbn [bind].
      destruct (truthy books) eqn:T.
      * destruct (renderSuggestions_by_argument books st)
          as [(ss & Hne & -> & _)|(_ & [E|E])].
        -- exfalso. now apply (H ss Hne).
        -- now rewrite E.
        -- now rewrite E.
      * reflexivity.
    + cbn [bind]. unfold callbackTail. cbn [bind].
      destruct payload; simpl in G; try discriminate;
        try (destruct (lookupField "books" fields); discriminate);
        inversion G; reflexivity.
Qed.

Lemma callback_displays_or_clears_witness :
  callbackTail (afterJson (Return dunePayload)) (initial "du" "/api/suggest")
  = displaying ["Dune"; "Dune Messiah"; "Foundation"] (initial "du" "/api/suggest")
  /\ callbackTail (afterJson (Return (VObj [("books", VArr [VStr "Dune"; VNum 7])])))
       duneOpen
     = clearSuggestions duneOpen.
Proof.
  split.
  - apply (proj1 (callback_displays_or_clears dunePayload _)
             ["Dune"; "Dune Messiah"; "Foundation"]); [discriminate | reflexivity].
  - apply (proj2 (callback_displays_or_clears
                    (VObj [("books", VArr [VStr "Dune"; VNum 7])]) duneOpen)).
    intros ss Hne H. cbn in H. injection H as H.
    destruct ss as [|a [|b ss]]; discriminate.
Defined.

(** X11 - a failure of the live request closes the dropdown: in a
    reachable state, when the request issued last is rejected by the
    network with anything but an AbortError, or answers with a status that
    is not a success, or its body fails to parse, the dropdown is cleared
    and the text field keeps its value; a successful status alone changes
    nothing on screen. *)
Theorem latest_failure_clears (st : State) (b : nat) (r : Request) :
  reachable st -> latest st = Some b -> nth_error (requests st) b = Some r ->
  (stage r = AwaitFetch ->
     (forall name, name <> "AbortError" ->
        ui (step st (FetchSettles b (Rejected name))) = ui (clearSuggestions st))
     /\ ui (step st (FetchSettles b (Resolved false))) = ui (clearSuggestions st)
     /\ ui (step st (FetchSettles b (Resolved true))) = ui st)
  /\ (stage r = AwaitJson ->
      forall name, name <> "AbortError" ->
        ui (step st (JsonSettles b (Throw name))) = ui (clearSuggestions st)).
Proof.
  intros R Hl E. pose proof (reachable_Inv st R) as I.
  pose proof (latest_live st b r I Hl E) as Hlive.
  split.
  - intros Hs. cbn [step]. unfold fetchSettles. rewrite E, Hs, Hlive.
    cbn [afterFetch]. split; [|split; reflexivity].
    intros name Hn. apply String.eqb_neq in Hn.
    unfold callbackTail. cbn [bind]. unfold abortError. rewrite Hn. reflexivity.
  - intros Hs name Hn. cbn [step]. unfold jsonSettles. rewrite E, Hs, Hlive.
    cbv zeta. apply String.eqb_neq in Hn.
    unfold callbackTail, afterJson. cbn [bind]. unfold abortError. rewrite Hn.
    reflexivity.
Qed.

Lemma latest_failure_clears_witness :
  reachable secondAwaitsBody
  /\ ui (step secondAwaitsBody (JsonSettles 1 (Throw "SyntaxError")))
     = ui (clearSuggestions secondAwaitsBody).
Proof.
  assert (R : reachable secondAwaitsBody).
  { unfold secondAwaitsBody, twoInFlight.
    apply reachable_run, reachable_run, reachable_initial. }
  assert (L : latest secondAwaitsBody = Some 1) by (vm_compute; reflexivity).
  assert (E : nth_error (requests secondAwaitsBody) 1
              = Some {| url := requestUrl "/api/suggest" "dun";
                        aborted := false; stage := AwaitJson |})
    by (vm_compute; reflexivity).
  split; [exact R|].
  apply (proj2 (latest_failure_clears secondAwaitsBody 1 _ R L E));
    [reflexivity | discriminate].
Defined.

(** ** Who writes the text field *)

Lemma inputValue_setActiveSuggestion (its : list Li) (st : State) :
  inputValue (setActiveSuggestion its st) = inputValue st.
Proof.
  unfold setActiveSuggestion. cbn.
  destruct (0 <=? activeIndex st)%Z; [|reflexivity].
  destruct (itemAt _ _); reflexivity.
Qed.

Lemma itemAt_In (its : list Li) (i : Z) (item : Li) :
  itemAt its i = Some item -> In (textContent item) (map textContent its).
Proof.
  unfold itemAt. destruct (i <? 0)%Z; [discriminate|].
  intros H. apply in_map. now apply nth_error_In in H.
Qed.

(** X12 - the script writes the text field only to commit a row: whatever
    event other than an edit by the user happens (a key, a press, a click,
    a timer, a response), the value of the field afterwards is either what
    it was or the text of one of the rows that were on display, with its
    line breaks removed by the field. *)
Theorem field_written_only_on_commit (st : State) (e : Event) :
  (forall text, e <> Input text) ->
  inputValue (step st e) = inputValue st
  \/ In (inputValue (step st e)) (map Html.stripNewlines (texts st)).
Proof.
  intros Hne. destruct e; cbn [step].
  - exfalso. now apply (Hne text).
  - unfold onKeydown.
    destruct (length (items st) =? 0)%nat; [now left|].
    destruct (String.eqb key "ArrowDown");
      [left; cbn [fst]; now rewrite inputValue_setActiveSuggestion|].
    destruct (String.eqb key "ArrowUp");
      [left; cbn [fst]; now rewrite inputValue_setActiveSuggestion|].
    destruct (String.eqb key "Enter" && (0 <=? activeIndex st)%Z).
    + destruct (itemAt (items st) (activeIndex st)) as [item|] eqn:E; [|now left].
      right. cbn. rewrite orEmpty_id. apply in_map. exact (itemAt_In _ _ _ E).
    + destruct (String.eqb key "Escape"); now left.
  - unfold onMousedown. destruct target as [i|]; [|now left].
    destruct (nth_error (items st) i) as [item|] eqn:E; [|now left].
    right. cbn. rewrite orEmpty_id. apply in_map, in_map.
    exact (nth_error_In _ _ E).
  - left. unfold onClick. destruct (negb inForm); reflexivity.
  - left. destruct (0 <=? ms)%Z; reflexivity.
  - left. unfold timerFires. destruct (findTimer id st) as [t|]; [|reflexivity].
    destruct (due t <=? clock st)%Z; [|reflexivity].
    unfold fetchSuggestions_start. cbn. destruct (controller st); reflexivity.
  - left. unfold fetchSettles.
    destruct (nth_error (requests st) id) as [r|]; [|reflexivity].
    destruct (stage r); try reflexivity.
    destruct (aborted r); [|destruct (afterFetch o)]; try reflexivity;
      match goal with
      | |- inputValue (callbackTail ?res ?s) = _ =>
          destruct (callbackTail_host res s) as (_ & _ & _ & _ & ->); reflexivity
      end.
  - left. unfold jsonSettles.
    destruct (nth_error (requests st) id) as [r|]; [|reflexivity].
    destruct (stage r); try reflexivity. cbv zeta.
    destruct (aborted r);
      match goal with
      | |- inputValue (callbackTail ?res ?s) = _ =>
          destruct (callbackTail_host res s) as (_ & _ & _ & _ & ->); reflexivity
      end.
Qed.

Lemma field_written_only_on_commit_witness :
  inputValue (step duneSecond (Keydown "Enter")) = inputValue duneSecond
  \/ In (inputValue (step duneSecond (Keydown "Enter")))
        (map Html.stripNewlines (texts duneSecond)).
Proof.
  apply (field_written_only_on_commit duneSecond (Keydown "Enter")).
  intros text. discriminate.
Defined.

(** ** A refreshed dropdown has no selection *)

Lemma activeCount_fresh (ss : list string) :
  activeCount (map (fun t => {| textContent := t; active := false |}) ss) = 0%nat.
Proof. unfold activeCount. induction ss as [|s ss IH]; [reflexivity | exact IH]. Qed.

(** X16 - a response never leaves a stale highlight: whatever the request
    completes with, the callback either leaves the state exactly as it was
    (an abort) or leaves the dropdown with index -1 and no row marked
    active; an AbortError in particular changes nothing. *)
Theorem callback_resets_selection (r : completion value) (st : State) :
  (callbackTail r st = st
   \/ (activeIndex (callbackTail r st) = (-1)%Z
       /\ activeCount (items (callbackTail r st)) = 0%nat))
  /\ callbackTail (Throw "AbortError") st = st.
Proof.
  split; [|reflexivity].
  destruct (callbackTail_cases r st) as [E|[E|(ss & _ & E)]]; rewrite E.
  - now left.
  - right. split; reflexivity.
  - right. split; [reflexivity|]. cbn. apply activeCount_fresh.
Qed.
